(** * sawit-drone: the flight-distance computation of [app.go]

    A shallow embedding of [app.go] and the proofs of the properties its
    specification states.

    Modelling choices.
    - Go's [int] is modelled by [Z], without wrap-around.  The model is the
      program wherever no intermediate value leaves the range of [int]: on
      the dimensions and heights that [Start] lets through, every variable
      of [calculateFlyDistance] stays inside the 64-bit range, as proved
      below.  A statement that would otherwise speak of values that wrap in
      the program carries the bounds under which they do not: dimensions up
      to 50000, heights between 1 and 30, or arguments inside the 64-bit
      range.  [/] and [%] are Go's truncated division and remainder,
      [Z.quot] and [Z.rem].
    - [map[string]int] is a [gmap string Z]; the two-valued lookup
      [v, found := m[k]] is [m !! k : option Z].
    - [fmt.Sprintf("%d", n)] is the decimal numeral of the Standard Library,
      with a leading minus sign for negative numbers and ["0"] for zero.
    - The [for] loop of [calculateFlyDistance] is a [Fixpoint] on a fuel
      argument that answers [None] when the fuel runs out before the loop
      condition fails; that the loop does exit is proved, not assumed.
    - [Start] talks to the outside through [UtilProvider.Scanln],
      [fmt.Println], [os.Stderr] and [osExit]: the provider is a function
      from the number of the call to the three integers that call stores,
      and a run is the record of what was printed and how it ended. *)

From Stdlib Require Import ZArith Lia Bool List Ascii String.
From Stdlib Require Import DecimalString DecimalZ DecimalPos DecimalFacts.
From stdpp Require Import gmap strings list fin_maps.

Local Open Scope Z_scope.

(** ** The pure helpers of [app.go] *)

(** [absInt]: the absolute value of the input. *)
Definition absInt (input : Z) : Z :=
  if input <? 0 then - input else input.

(** [calculateHorizontalDistance]: the closed form of the horizontal
    distance of the sweep. *)
Definition calculateHorizontalDistance (length width : Z) : Z :=
  if width =? 1 then length - 1
  else
    let northSteps := Z.quot width 2 in
    let northSteps :=
      if negb (Z.rem width 2 =? 0) then northSteps + 1 else northSteps in
    (length - 1) * width + northSteps.

(** [getNextPlotCoordinate]: the next plot of the sweep.  The test on the
    west edge comes first, as in the source. *)
Definition getNextPlotCoordinate (length x y : Z) : Z * Z :=
  if x =? 1 then
    if Z.rem y 2 =? 0 then (x, y + 1) else (x + 1, y)
  else if x =? length then
    if Z.rem y 2 =? 0 then (x - 1, y) else (x, y + 1)
  else
    if Z.rem y 2 =? 0 then (x - 1, y) else (x + 1, y).

(** The verb [%d] of [fmt.Sprintf]. *)
Definition sprintf_d (n : Z) : string :=
  NilZero.string_of_int (Z.to_int n).

(** [generateTreeKey]: ["x,y"]. *)
Definition generateTreeKey (x y : Z) : string :=
  sprintf_d x +:+ "," +:+ sprintf_d y.

(** ** The accumulator *)

(** The variables the loop of [calculateFlyDistance] updates. *)
Record drone : Type := Drone {
  drone_x : Z;
  drone_y : Z;
  currentAltitude : Z;
  distance : Z
}.

(** One pass through the body of the loop: move, look the plot up, adjust
    the altitude. *)
Definition flyStep (length : Z) (treeMap : gmap string Z) (d : drone) : drone :=
  let '(x, y) := getNextPlotCoordinate length (drone_x d) (drone_y d) in
  let key := generateTreeKey x y in
  match treeMap !! key with
  | None =>
      if negb (currentAltitude d =? 1) then
        let deltaAltitude := currentAltitude d - 1 in
        Drone x y 1 (distance d + absInt deltaAltitude)
      else Drone x y (currentAltitude d) (distance d)
  | Some treeHeight =>
      let deltaAltitude := treeHeight + 1 - currentAltitude d in
      Drone x y (treeHeight + 1) (distance d + absInt deltaAltitude)
  end.

(** [for x <= length && y <= width { ... }], then [return distance]. *)
Fixpoint flyLoop (fuel : nat) (length width : Z) (treeMap : gmap string Z)
    (d : drone) : option Z :=
  if (drone_x d <=? length) && (drone_y d <=? width) then
    match fuel with
    | O => None
    | S fuel' => flyLoop fuel' length width treeMap (flyStep length treeMap d)
    end
  else Some (distance d).

(** [calculateFlyDistance]: take-off, ten per horizontal step, landing, and
    the altitude changes met on the way. *)
Definition calculateFlyDistance (fuel : nat) (length width : Z)
    (treeMap : gmap string Z) : option Z :=
  let distance := 1 + calculateHorizontalDistance length width * 10 + 1 in
  flyLoop fuel length width treeMap (Drone 1 1 1 distance).

(** Fuel that is enough for a field: one pass per plot. *)
Definition plots (length width : Z) : nat := Z.to_nat (length * width).

(** ** The entry point *)

(** [validateInitialInputs]: the three bounds, in the order of the source. *)
Definition validateInitialInputs (length width count : Z) : bool :=
  (width >=? 1) && (width <=? 50000) &&
  (length >=? 1) && (length <=? 50000) &&
  (count >=? 1) && (count <=? 50000).

(** What a run of [Start] did: how many times it called [Scanln], what
    [fmt.Println] wrote, what went to [os.Stderr], and the status given to
    [osExit] when it was called. *)
Record run : Type := Run {
  scans : nat;
  stdout : list Z;
  stderr : list string;
  exitStatus : option Z
}.

(** [throwFail]: ["FAIL"] on the error stream, then [osExit(1)]. *)
Definition throwFail (r : run) : run :=
  Run (scans r) (stdout r) (stderr r ++ ["FAIL"%string]) (Some 1).

(** The [for i := 0; i < count; i++] loop of [Start] with [remaining]
    passes to go, [i] triples read so far.  It answers the number of triples
    read and the table, or no table when a height was refused. *)
Fixpoint readTrees (util : nat -> Z * Z * Z) (remaining i : nat)
    (treeMap : gmap string Z) : nat * option (gmap string Z) :=
  match remaining with
  | O => (i, Some treeMap)
  | S remaining' =>
      let '(x, y, height) := util (S i) in
      if (height <? 1) || (height >? 30) then (S i, None)
      else
        let treeKey := generateTreeKey x y in
        readTrees util remaining' (S i) (<[treeKey := height]> treeMap)
  end.

(** [Start].  Call [0] of the provider stores length, width and count; call
    [i + 1] stores the [i]-th triple. *)
Definition Start (fuel : nat) (util : nat -> Z * Z * Z) : option run :=
  let '(length, width, count) := util O in
  if negb (validateInitialInputs length width count) then
    Some (throwFail (Run 1 [] [] None))
  else
    match readTrees util (Z.to_nat count) O ∅ with
    | (i, None) => Some (throwFail (Run (S i) [] [] None))
    | (i, Some treeMap) =>
        match calculateFlyDistance fuel length width treeMap with
        | Some distance => Some (Run (S i) [distance] [] None)
        | None => None
        end
    end.

(** ** The algorithm as the specification words it

    Section 4.3 of the specification, over an obstacle table read by
    coordinate and with the mathematical absolute value. *)

Fixpoint referenceLoop (fuel : nat) (length width : Z)
    (obstacleAt : Z -> Z -> option Z) (x y altitude total : Z) : option Z :=
  if decide (x <= length /\ y <= width) then
    match fuel with
    | O => None
    | S fuel' =>
        let p := getNextPlotCoordinate length x y in
        match obstacleAt p.1 p.2 with
        | None =>
            if decide (altitude <> 1)
            then referenceLoop fuel' length width obstacleAt p.1 p.2 1
                   (total + Z.abs (altitude - 1))
            else referenceLoop fuel' length width obstacleAt p.1 p.2 altitude total
        | Some h =>
            let required := h + 1 in
            referenceLoop fuel' length width obstacleAt p.1 p.2 required
              (total + Z.abs (required - altitude))
        end
    end
  else Some total.

Definition referenceFlyDistance (fuel : nat) (length width : Z)
    (obstacleAt : Z -> Z -> option Z) : option Z :=
  referenceLoop fuel length width obstacleAt 1 1 1
    (1 + 10 * calculateHorizontalDistance length width + 1).

(** ** The path of the sweep *)

(** The plots met when [getNextPlotCoordinate] is applied [steps] times from
    [(x, y)], the starting plot included. *)
Fixpoint traversal (steps : nat) (length x y : Z) : list (Z * Z) :=
  (x, y) ::
  match steps with
  | O => []
  | S steps' =>
      let '(x1, y1) := getNextPlotCoordinate length x y in
      traversal steps' length x1 y1
  end.

(** The table [Start] builds from the triples it reads, in their order. *)
Definition buildTreeMap (trees : list (Z * Z * Z)) : gmap string Z :=
  foldl (fun treeMap '(x, y, height) => <[generateTreeKey x y := height]> treeMap)
        ∅ trees.

(** ** Notions used in the proofs *)

(** A string without the separator of [generateTreeKey]. *)
Fixpoint commaFree (s : string) : bool :=
  match s with
  | EmptyString => true
  | String c s' => negb (Ascii.eqb c ",") && commaFree s'
  end.

(** The plot the sweep of a field at least two plots long reaches after [k]
    steps from [(1, 1)]: row [k / length] counted from zero, swept eastwards
    when that number is even and westwards when it is odd. *)
Definition plotAt (length k : Z) : Z * Z :=
  let row := k / length in
  let col := k mod length in
  (if Z.even row then col + 1 else length - col, row + 1).

(** The plots of the field. *)
Definition inField (length width : Z) (p : Z * Z) : Prop :=
  1 <= p.1 <= length /\ 1 <= p.2 <= width.

(** The plot the drone is on. *)
Definition dronePlot (d : drone) : Z * Z := (drone_x d, drone_y d).

(** The passes the loop of [calculateFlyDistance] makes: one when the field
    is a single plot long, one per plot otherwise. *)
Definition passes (length width : Z) : nat :=
  if length =? 1 then 1%nat else plots length width.

(** The drone as the loop finds it, before the first pass. *)
Definition takeOff (length width : Z) : drone :=
  Drone 1 1 1 (1 + calculateHorizontalDistance length width * 10 + 1).

(** The entry [Start] stores for a triple. *)
Definition treeEntry (tree : Z * Z * Z) : string * Z :=
  let '(x, y, height) := tree in (generateTreeKey x y, height).

(** A height the loop of [Start] lets through. *)
Definition heightAccepted (tree : Z * Z * Z) : Prop := 1 <= tree.2 <= 30.

(** The three bounds [validateInitialInputs] asks for. *)
Definition dimensionsAccepted (length width count : Z) : Prop :=
  1 <= length <= 50000 /\ 1 <= width <= 50000 /\ 1 <= count <= 50000.

(** The run that [throwFail] ends after [n] calls of [Scanln]: nothing
    printed, ["FAIL"] on the error stream, status 1. *)
Definition failedRun (n : nat) : run := Run n [] ["FAIL"%string] (Some 1).

(** The provider of the test "given success then expect no error and panic"
    of [TestApp_Start]: a field 1 by 2, one tree, entered at (5, 2) with
    height 2. *)
Definition successTestUtil (call : nat) : Z * Z * Z :=
  match call with
  | O => (1, 2, 1)
  | _ => (5, 2, 2)
  end.

(** The provider of the test "given invalid tree height then expect os.Exit
    1": the same field, one tree of height 31. *)
Definition invalidHeightTestUtil (call : nat) : Z * Z * Z :=
  match call with
  | O => (1, 2, 1)
  | _ => (1, 2, 31)
  end.

(** The signed 64-bit range of Go's [int] on a 64-bit platform. *)
Definition fitsInt64 (z : Z) : Prop := - 2 ^ 63 <= z < 2 ^ 63.

(** A table as [Start] builds it: heights between 1 and 30. *)
Definition heightsAccepted (treeMap : gmap string Z) : Prop :=
  forall key height, treeMap !! key = Some height -> 1 <= height <= 30.

(** The altitude the drone takes over a plot: one above the tree the table
    holds for it, 1 when it holds none. *)
Definition requiredAltitude (treeMap : gmap string Z) (p : Z * Z) : Z :=
  match treeMap !! generateTreeKey p.1 p.2 with
  | Some treeHeight => treeHeight + 1
  | None => 1
  end.

(** The vertical distance of a flight that starts at [altitude] and takes
    the altitudes of [profile] one after the other. *)
Fixpoint climbs (altitude : Z) (profile : list Z) : Z :=
  match profile with
  | [] => 0
  | a :: profile' => Z.abs (a - altitude) + climbs a profile'
  end.

(** The plots the loop of [calculateFlyDistance] looks up, in order: those
    the stepper reaches in [passes] steps from (1, 1), without (1, 1). *)
Definition visited (length width : Z) : list (Z * Z) :=
  tail (traversal (passes length width) length 1 1).

(** The height of the last triple of [trees] entered for the plot [(x, y)]. *)
Fixpoint lastHeight (trees : list (Z * Z * Z)) (x y : Z) : option Z :=
  match trees with
  | [] => None
  | (x', y', height) :: trees' =>
      match lastHeight trees' x y with
      | Some height' => Some height'
      | None => if decide ((x', y') = (x, y)) then Some height else None
      end
  end.

(** The first [n] triples the provider hands to the loop of [Start]. *)
Definition scannedTrees (util : nat -> Z * Z * Z) (n : nat) : list (Z * Z * Z) :=
  (fun i => util (S i)) <$> seq 0 n.

(** An integer strictly inside the 64-bit range: its successor and its
    predecessor are 64-bit integers too. *)
Definition insideInt64 (z : Z) : Prop := - 2 ^ 63 < z < 2 ^ 63 - 1.

(** * Properties *)

(** ** The stepper and the closed form *)

(** C3: on a plot of the field, [getNextPlotCoordinate] goes north from the
    west edge on an even row and east on an odd one; from the east edge it
    goes west on an even row and north on an odd one; from an interior column
    it goes west on an even row and east on an odd one.  The six values of
    the specification follow. *)
Theorem getNextPlotCoordinate_rule (length x y : Z) :
  1 <= x -> 1 <= y -> 1 <= length -> x <= length ->
  (x = 1 -> Z.Even y -> getNextPlotCoordinate length x y = (x, y + 1)) /\
  (x = 1 -> Z.Odd y -> getNextPlotCoordinate length x y = (x + 1, y)) /\
  (x <> 1 -> x = length -> Z.Even y ->
     getNextPlotCoordinate length x y = (x - 1, y)) /\
  (x <> 1 -> x = length -> Z.Odd y ->
     getNextPlotCoordinate length x y = (x, y + 1)) /\
  (x <> 1 -> (x <> length) -> Z.Even y ->
     getNextPlotCoordinate length x y = (x - 1, y)) /\
  (x <> 1 -> (x <> length) -> Z.Odd y ->
     getNextPlotCoordinate length x y = (x + 1, y)) /\
  getNextPlotCoordinate 4 1 1 = (2, 1) /\
  getNextPlotCoordinate 4 1 2 = (1, 3) /\
  getNextPlotCoordinate 4 4 1 = (4, 2) /\
  getNextPlotCoordinate 4 4 2 = (3, 2) /\
  getNextPlotCoordinate 4 2 2 = (1, 2) /\
  getNextPlotCoordinate 4 2 1 = (3, 1).
Proof.
  intros _ _ _ _.
  assert (Hev : Z.Even y -> (Z.rem y 2 =? 0) = true).
  { intros [k ->]. apply Z.eqb_eq. Z.quot_rem_to_equations. lia. }
  assert (Hod : Z.Odd y -> (Z.rem y 2 =? 0) = false).
  { intros [k ->]. apply Z.eqb_neq. Z.quot_rem_to_equations. lia. }
  unfold getNextPlotCoordinate.
  repeat split; try reflexivity; intros;
    repeat match goal with
           | H : Z.Even _ |- _ => apply Hev in H; rewrite H
           | H : Z.Odd _ |- _ => apply Hod in H; rewrite H
           | H : ?a = ?b |- context [?a =? ?b] => rewrite (proj2 (Z.eqb_eq a b) H)
           | H : ?a <> ?b |- context [?a =? ?b] => rewrite (proj2 (Z.eqb_neq a b) H)
           end; reflexivity.
Qed.

(** The east edge of a field four plots long, on its second row. *)
Lemma getNextPlotCoordinate_rule_witness :
  (4 = 1 -> Z.Even 2 -> getNextPlotCoordinate 4 4 2 = (4, 2 + 1)) /\
  (4 = 1 -> Z.Odd 2 -> getNextPlotCoordinate 4 4 2 = (4 + 1, 2)) /\
  (4 <> 1 -> 4 = 4 -> Z.Even 2 -> getNextPlotCoordinate 4 4 2 = (4 - 1, 2)) /\
  (4 <> 1 -> 4 = 4 -> Z.Odd 2 -> getNextPlotCoordinate 4 4 2 = (4, 2 + 1)) /\
  (4 <> 1 -> (4 <> 4) -> Z.Even 2 -> getNextPlotCoordinate 4 4 2 = (4 - 1, 2)) /\
  (4 <> 1 -> (4 <> 4) -> Z.Odd 2 -> getNextPlotCoordinate 4 4 2 = (4 + 1, 2)) /\
  getNextPlotCoordinate 4 1 1 = (2, 1) /\
  getNextPlotCoordinate 4 1 2 = (1, 3) /\
  getNextPlotCoordinate 4 4 1 = (4, 2) /\
  getNextPlotCoordinate 4 4 2 = (3, 2) /\
  getNextPlotCoordinate 4 2 2 = (1, 2) /\
  getNextPlotCoordinate 4 2 1 = (3, 1).
Proof. apply (getNextPlotCoordinate_rule 4 4 2); lia. Defined.

(** C4: on one row the horizontal distance is [length - 1]; on two rows or
    more it is [(length - 1) * width] plus half the width rounded up.  The
    three values of the specification follow. *)
Theorem calculateHorizontalDistance_closed_form (length : Z) :
  1 <= length ->
  calculateHorizontalDistance length 1 = length - 1 /\
  (forall width, 2 <= width ->
     let northSteps := width / 2 + (if Z.odd width then 1 else 0) in
     calculateHorizontalDistance length width = (length - 1) * width + northSteps /\
     width <= 2 * northSteps < width + 2) /\
  calculateHorizontalDistance 5 1 = 4 /\
  calculateHorizontalDistance 5 2 = 9 /\
  calculateHorizontalDistance 5 3 = 14.
Proof.
  intros _. split; [reflexivity|]. split; [|repeat split; reflexivity].
  intros width Hw northSteps. subst northSteps.
  unfold calculateHorizontalDistance.
  destruct (Z.eqb_spec width 1) as [->|_]; [lia|].
  rewrite Z.quot_div_nonneg, Z.rem_mod_nonneg by lia.
  destruct (Z.odd width) eqn:O.
  - apply Z.odd_spec in O as [k ->].
    destruct (Z.eqb_spec ((2 * k + 1) mod 2) 0) as [E|E]; simpl;
      Z.div_mod_to_equations; lia.
  - rewrite <- Z.negb_even in O. apply negb_false_iff, Z.even_spec in O as [k ->].
    destruct (Z.eqb_spec ((2 * k) mod 2) 0) as [E|E]; simpl;
      Z.div_mod_to_equations; lia.
Qed.

(** A field five plots long and three wide. *)
Lemma calculateHorizontalDistance_closed_form_witness :
  calculateHorizontalDistance 5 1 = 5 - 1 /\
  (forall width, 2 <= width ->
     let northSteps := width / 2 + (if Z.odd width then 1 else 0) in
     calculateHorizontalDistance 5 width = (5 - 1) * width + northSteps /\
     width <= 2 * northSteps < width + 2) /\
  calculateHorizontalDistance 5 1 = 4 /\
  calculateHorizontalDistance 5 2 = 9 /\
  calculateHorizontalDistance 5 3 = 14.
Proof. apply (calculateHorizontalDistance_closed_form 5). lia. Defined.

(** ** The key of a plot *)

Lemma commaFree_uint (d : Decimal.uint) :
  commaFree (NilEmpty.string_of_uint d) = true.
Proof. induction d; simpl; auto. Qed.

Lemma commaFree_sprintf_d (n : Z) : commaFree (sprintf_d n) = true.
Proof.
  unfold sprintf_d, NilZero.string_of_int, NilZero.string_of_uint.
  destruct n as [|p|p]; simpl; [reflexivity| |];
    destruct (Pos.to_uint p) eqn:E; try reflexivity;
    rewrite <- E; apply commaFree_uint.
Qed.

(** Two strings cut at their first comma. *)
Lemma append_comma_inj (s1 t1 s2 t2 : string) :
  commaFree s1 = true -> commaFree t1 = true ->
  s1 +:+ "," +:+ s2 = t1 +:+ "," +:+ t2 -> s1 = t1 /\ s2 = t2.
Proof.
  assert (Hcons : forall c u v, String c u +:+ v = String c (u +:+ v))
    by reflexivity.
  assert (Hnil : forall v, "" +:+ v = v) by reflexivity.
  revert t1. induction s1 as [|c s1 IH]; intros [|c' t1]; simpl; intros H1 H2 E;
    rewrite ?Hcons, ?Hnil in E.
  - injection E as E. subst t2. auto.
  - injection E as Ec _. subst c'. discriminate H2.
  - injection E as Ec _. subst c. discriminate H1.
  - injection E as Ec E. subst c'.
    apply andb_prop in H1 as [_ H1]. apply andb_prop in H2 as [_ H2].
    destruct (IH t1 H1 H2 E) as [E1 E2]. subst. auto.
Qed.

Lemma to_int_not_nil (n : Z) :
  Z.to_int n <> Decimal.Pos Decimal.Nil /\ Z.to_int n <> Decimal.Neg Decimal.Nil.
Proof.
  destruct n as [|p|p]; simpl; split; try discriminate;
    intros [= E]; exact (Unsigned.to_uint_nonnil p E).
Qed.

(** A numeral is the numeral of one integer only. *)
Lemma sprintf_d_inj (a b : Z) : sprintf_d a = sprintf_d b -> a = b.
Proof.
  unfold sprintf_d. intros E.
  destruct (to_int_not_nil a) as [Ha1 Ha2], (to_int_not_nil b) as [Hb1 Hb2].
  pose proof (NilZero.isi _ Ha1 Ha2) as Ia.
  pose proof (NilZero.isi _ Hb1 Hb2) as Ib.
  rewrite E, Ib in Ia. injection Ia as Ia.
  rewrite <- (DecimalZ.of_to a), <- (DecimalZ.of_to b). congruence.
Qed.

Lemma generateTreeKey_inj (x1 y1 x2 y2 : Z) :
  generateTreeKey x1 y1 = generateTreeKey x2 y2 -> x1 = x2 /\ y1 = y2.
Proof.
  unfold generateTreeKey. intros E.
  apply append_comma_inj in E as [Ex Ey]; try apply commaFree_sprintf_d.
  split; apply sprintf_d_inj; assumption.
Qed.

(** C8: two different plots with coordinates from 1 upwards have different
    keys. *)
Theorem generateTreeKey_injective (x1 y1 x2 y2 : Z) :
  1 <= x1 -> 1 <= y1 -> 1 <= x2 -> 1 <= y2 ->
  (x1, y1) <> (x2, y2) ->
  generateTreeKey x1 y1 <> generateTreeKey x2 y2.
Proof.
  intros _ _ _ _ Hne E. apply Hne.
  destruct (generateTreeKey_inj _ _ _ _ E) as [-> ->]. reflexivity.
Qed.

(** The plots (2, 11) and (21, 1), whose digits read the same in a row. *)
Lemma generateTreeKey_injective_witness :
  generateTreeKey 2 11 <> generateTreeKey 21 1.
Proof.
  apply (generateTreeKey_injective 2 11 21 1); try lia.
  intros E. discriminate E.
Defined.

(** ** The sweep of a field at least two plots long *)

Lemma rem_2_even (y : Z) : (Z.rem y 2 =? 0) = Z.even y.
Proof.
  destruct (Z.even y) eqn:E.
  - apply Z.even_spec in E as [k ->]. apply Z.eqb_eq.
    Z.quot_rem_to_equations. lia.
  - rewrite <- Z.negb_odd in E. apply negb_false_iff, Z.odd_spec in E as [k ->].
    apply Z.eqb_neq. Z.quot_rem_to_equations. lia.
Qed.

Lemma even_next (r : Z) : Z.even (r + 1) = negb (Z.even r).
Proof. rewrite Z.add_1_r, Z.even_succ, Z.negb_even. reflexivity. Qed.

(** Quotient and remainder of the next step number: the same row, or the
    start of the next one. *)
Lemma div_mod_next (length k : Z) :
  0 < length -> 0 <= k ->
  (k mod length + 1 < length /\
   (k + 1) / length = k / length /\ (k + 1) mod length = k mod length + 1) \/
  (k mod length + 1 = length /\
   (k + 1) / length = k / length + 1 /\ (k + 1) mod length = 0).
Proof.
  intros Hl Hk.
  pose proof (Z.div_mod k length ltac:(lia)) as Hdm.
  pose proof (Z.mod_pos_bound k length Hl) as Hb.
  destruct (Z_lt_dec (k mod length + 1) length) as [Hlt|Hge]; [left|right].
  - split; [assumption|].
    split; symmetry.
    + apply (Z.div_unique _ _ _ (k mod length + 1)); lia.
    + apply (Z.mod_unique _ _ (k / length)); lia.
  - split; [lia|].
    split; symmetry.
    + apply (Z.div_unique _ _ _ 0); lia.
    + apply (Z.mod_unique _ _ (k / length + 1)); lia.
Qed.

(** [plotAt] is the path: one application of the stepper goes from the plot
    of step [k] to the plot of step [k + 1]. *)
Lemma plotAt_next (length k : Z) :
  2 <= length -> 0 <= k ->
  getNextPlotCoordinate length (plotAt length k).1 (plotAt length k).2
  = plotAt length (k + 1).
Proof.
  intros Hl Hk. unfold plotAt, getNextPlotCoordinate. cbn [fst snd].
  pose proof (Z.mod_pos_bound k length ltac:(lia)) as Hb.
  rewrite rem_2_even, even_next.
  destruct (div_mod_next length k ltac:(lia) Hk) as [(Hc & -> & ->)|(Hc & -> & ->)];
    rewrite ?even_next;
    destruct (Z.even (k / length)); cbn [negb];
    repeat match goal with
           | |- context [?a =? ?b] => destruct (Z.eqb_spec a b)
           end;
    f_equal; lia.
Qed.

Lemma plotAt_0 (length : Z) : 2 <= length -> plotAt length 0 = (1, 1).
Proof.
  intros Hl. unfold plotAt. rewrite Z.div_0_l, Z.mod_0_l by lia. reflexivity.
Qed.

(** The first [length * width] steps are on the field, the next one is not. *)
Lemma plotAt_inField (length width k : Z) :
  2 <= length -> 0 <= k < length * width -> inField length width (plotAt length k).
Proof.
  intros Hl Hk. unfold inField, plotAt. cbn [fst snd].
  pose proof (Z.mod_pos_bound k length ltac:(lia)).
  pose proof (Z.div_pos k length ltac:(lia) ltac:(lia)).
  assert (k / length < width) by (apply Z.div_lt_upper_bound; lia).
  destruct (Z.even (k / length)); lia.
Qed.

Lemma plotAt_exit (length width : Z) :
  2 <= length -> 0 <= width -> (plotAt length (length * width)).2 = width + 1.
Proof.
  intros Hl Hw. unfold plotAt. cbn [snd].
  rewrite Z.mul_comm, Z.div_mul by lia. reflexivity.
Qed.

(** The step number of a plot of the field. *)
Lemma plotAt_surj (length width x y : Z) :
  2 <= length -> inField length width (x, y) ->
  exists k, 0 <= k < length * width /\ plotAt length k = (x, y).
Proof.
  intros Hl [[Hx1 Hx2] [Hy1 Hy2]]. cbn [fst snd] in *.
  set (col := if Z.even (y - 1) then x - 1 else length - x).
  assert (Hcol : 0 <= col < length) by (subst col; destruct (Z.even (y - 1)); lia).
  exists ((y - 1) * length + col). split; [nia|].
  unfold plotAt.
  rewrite <- (Z.div_unique ((y - 1) * length + col) length (y - 1) col) by lia.
  rewrite <- (Z.mod_unique ((y - 1) * length + col) length (y - 1) col) by lia.
  subst col. destruct (Z.even (y - 1)); f_equal; lia.
Qed.

Lemma plotAt_inj (length j k : Z) :
  2 <= length -> 0 <= j -> 0 <= k -> plotAt length j = plotAt length k -> j = k.
Proof.
  intros Hl Hj Hk E. unfold plotAt in E. injection E as Ex Ey.
  assert (Er : j / length = k / length) by lia.
  rewrite Er in Ex.
  assert (Ec : j mod length = k mod length)
    by (destruct (Z.even (k / length)); lia).
  rewrite (Z.div_mod j length), (Z.div_mod k length) by lia.
  congruence.
Qed.

(** Only step 0 is on the starting plot. *)
Lemma plotAt_start (length k : Z) :
  2 <= length -> 0 <= k -> plotAt length k = (1, 1) -> k = 0.
Proof.
  intros Hl Hk E. apply (plotAt_inj length); try lia.
  rewrite plotAt_0; assumption.
Qed.

(** ** The loop of [calculateFlyDistance] *)

Lemma absInt_abs (z : Z) : absInt z = Z.abs z.
Proof. unfold absInt. destruct (Z.ltb_spec z 0); lia. Qed.

Lemma flyStep_plot (length : Z) (treeMap : gmap string Z) (d : drone) :
  dronePlot (flyStep length treeMap d)
  = getNextPlotCoordinate length (drone_x d) (drone_y d).
Proof.
  unfold flyStep, dronePlot.
  destruct (getNextPlotCoordinate length (drone_x d) (drone_y d)) as [x y].
  destruct (treeMap !! generateTreeKey x y); [reflexivity|].
  destruct (negb (currentAltitude d =? 1)); reflexivity.
Qed.

Lemma flyLoop_pass (fuel : nat) (length width : Z) (treeMap : gmap string Z)
    (d : drone) :
  drone_x d <= length -> drone_y d <= width ->
  flyLoop (S fuel) length width treeMap d
  = flyLoop fuel length width treeMap (flyStep length treeMap d).
Proof.
  intros Hx Hy. cbn [flyLoop].
  rewrite (proj2 (Z.leb_le _ _) Hx), (proj2 (Z.leb_le _ _) Hy). reflexivity.
Qed.

Lemma flyLoop_exit (fuel : nat) (length width : Z) (treeMap : gmap string Z)
    (d : drone) :
  length < drone_x d \/ width < drone_y d ->
  flyLoop fuel length width treeMap d = Some (distance d).
Proof.
  intros H.
  assert (E : (drone_x d <=? length) && (drone_y d <=? width) = false).
  { apply andb_false_iff. destruct H; [left|right]; apply Z.leb_gt; assumption. }
  destruct fuel; cbn [flyLoop]; rewrite E; reflexivity.
Qed.

(** From step [k] of the sweep, the loop makes the [n] passes that remain and
    returns the distance it then holds. *)
Lemma flyLoop_sweep (length width : Z) (treeMap : gmap string Z) :
  2 <= length -> 0 <= width ->
  forall (n : nat) (k : Z) (d : drone) (fuel : nat),
    0 <= k -> k + Z.of_nat n = length * width ->
    dronePlot d = plotAt length k -> (n <= fuel)%nat ->
    flyLoop fuel length width treeMap d
    = Some (distance (Nat.iter n (flyStep length treeMap) d)).
Proof.
  intros Hl Hw. induction n as [|n IH]; intros k d fuel Hk Hn Hd Hfuel.
  - rewrite flyLoop_exit; [reflexivity|]. right.
    assert (E : drone_y d = (plotAt length k).2) by (rewrite <- Hd; reflexivity).
    rewrite E. replace k with (length * width) by lia.
    rewrite plotAt_exit by lia. lia.
  - destruct fuel as [|fuel]; [lia|].
    destruct (plotAt_inField length width k Hl ltac:(lia)) as [Hx Hy].
    rewrite <- Hd in Hx, Hy. cbn [dronePlot fst snd] in Hx, Hy.
    rewrite flyLoop_pass by lia.
    rewrite Nat.iter_succ_r.
    apply (IH (k + 1)); try lia.
    rewrite flyStep_plot.
    change (drone_x d) with (dronePlot d).1.
    change (drone_y d) with (dronePlot d).2.
    rewrite Hd. apply plotAt_next; lia.
Qed.

(** On a field one plot long the first pass goes east, off the field. *)
Lemma flyLoop_single_column (width : Z) (treeMap : gmap string Z)
    (altitude total : Z) (fuel : nat) :
  1 <= width -> (1 <= fuel)%nat ->
  flyLoop fuel 1 width treeMap (Drone 1 1 altitude total)
  = Some (distance (flyStep 1 treeMap (Drone 1 1 altitude total))).
Proof.
  intros Hw Hfuel. destruct fuel as [|fuel]; [lia|].
  rewrite flyLoop_pass by (cbn [drone_x drone_y]; lia).
  apply flyLoop_exit. left.
  pose proof (flyStep_plot 1 treeMap (Drone 1 1 altitude total)) as E.
  change (dronePlot (flyStep 1 treeMap (Drone 1 1 altitude total)) = (2, 1)) in E.
  apply (f_equal fst) in E. cbn [fst dronePlot] in E. rewrite E. lia.
Qed.

Lemma plots_positive (length width : Z) :
  1 <= length -> 1 <= width -> (1 <= plots length width)%nat.
Proof. intros Hl Hw. unfold plots. nia. Qed.

(** What [calculateFlyDistance] returns on a field, given fuel for one pass
    per plot. *)
Lemma calculateFlyDistance_run (fuel : nat) (length width : Z)
    (treeMap : gmap string Z) :
  1 <= length -> 1 <= width -> (plots length width <= fuel)%nat ->
  calculateFlyDistance fuel length width treeMap
  = Some (distance (Nat.iter (passes length width) (flyStep length treeMap)
                             (takeOff length width))).
Proof.
  intros Hl Hw Hfuel. unfold calculateFlyDistance, passes, takeOff.
  pose proof (plots_positive length width Hl Hw).
  destruct (Z.eqb_spec length 1) as [->|Hne].
  - apply flyLoop_single_column; lia.
  - apply (flyLoop_sweep length width treeMap ltac:(lia) ltac:(lia) _ 0);
      try lia.
    + unfold plots. nia.
    + rewrite plotAt_0 by lia. reflexivity.
Qed.

(** C9: on a field whose dimensions are within the bound of the
    specification, 50000 each, the loop of [calculateFlyDistance] exits: with
    fuel for one pass per plot the function returns a distance, the same for
    any larger amount of fuel, whatever the table holds. *)
Theorem calculateFlyDistance_terminates (length width : Z)
    (treeMap : gmap string Z) :
  1 <= length <= 50000 -> 1 <= width <= 50000 ->
  exists total, forall fuel, (plots length width <= fuel)%nat ->
    calculateFlyDistance fuel length width treeMap = Some total.
Proof.
  intros Hl Hw. eexists. intros fuel Hfuel.
  apply calculateFlyDistance_run; lia.
Qed.

(** A field of three rows of four plots with one tree. *)
Lemma calculateFlyDistance_terminates_witness :
  exists total, forall fuel, (plots 4 3 <= fuel)%nat ->
    calculateFlyDistance fuel 4 3 {[ "2,2"%string := 7 ]} = Some total.
Proof. apply (calculateFlyDistance_terminates 4 3); lia. Defined.

(** Without trees a pass changes neither the altitude nor the distance. *)
Lemma flyStep_no_trees (length : Z) (d : drone) :
  currentAltitude d = 1 ->
  currentAltitude (flyStep length ∅ d) = 1 /\
  distance (flyStep length ∅ d) = distance d.
Proof.
  intros Ha. unfold flyStep.
  destruct (getNextPlotCoordinate length (drone_x d) (drone_y d)) as [x y].
  rewrite lookup_empty, Ha. cbn. auto.
Qed.

Lemma iter_no_trees (length : Z) (n : nat) (d : drone) :
  currentAltitude d = 1 ->
  currentAltitude (Nat.iter n (flyStep length ∅) d) = 1 /\
  distance (Nat.iter n (flyStep length ∅) d) = distance d.
Proof.
  intros Ha. induction n as [|n [IHa IHd]]; [auto|].
  rewrite Nat.iter_succ.
  destruct (flyStep_no_trees length _ IHa) as [Ha' Hd']. split; congruence.
Qed.

(** C6: over a field without trees the distance is the take-off, the
    landing and ten times the horizontal distance. *)
Theorem calculateFlyDistance_no_trees (fuel : nat) (length width : Z) :
  1 <= length -> 1 <= width -> (plots length width <= fuel)%nat ->
  calculateFlyDistance fuel length width ∅
  = Some (2 + 10 * calculateHorizontalDistance length width).
Proof.
  intros Hl Hw Hfuel. rewrite calculateFlyDistance_run by assumption.
  destruct (iter_no_trees length (passes length width) (takeOff length width))
    as [_ ->]; [reflexivity|].
  unfold takeOff. cbn [distance]. f_equal. lia.
Qed.

(** A field of three rows of five plots. *)
Lemma calculateFlyDistance_no_trees_witness :
  calculateFlyDistance 15 5 3 ∅ = Some (2 + 10 * calculateHorizontalDistance 5 3).
Proof. apply (calculateFlyDistance_no_trees 15 5 3); unfold plots; lia. Defined.

(** ** The starting plot *)

(** Two tables that agree on every plot but (1, 1) make the same pass when
    the pass does not lead to (1, 1). *)
Lemma flyStep_agree (length : Z) (treeMap1 treeMap2 : gmap string Z) (d : drone) :
  (forall x y, (x, y) <> (1, 1) ->
     treeMap1 !! generateTreeKey x y = treeMap2 !! generateTreeKey x y) ->
  getNextPlotCoordinate length (drone_x d) (drone_y d) <> (1, 1) ->
  flyStep length treeMap1 d = flyStep length treeMap2 d.
Proof.
  intros Hagree Hne. unfold flyStep.
  destruct (getNextPlotCoordinate length (drone_x d) (drone_y d)) as [x y].
  rewrite (Hagree x y Hne). reflexivity.
Qed.

Lemma iter_agree (length : Z) (treeMap1 treeMap2 : gmap string Z) :
  2 <= length ->
  (forall x y, (x, y) <> (1, 1) ->
     treeMap1 !! generateTreeKey x y = treeMap2 !! generateTreeKey x y) ->
  forall (n : nat) (k : Z) (d : drone),
    0 <= k -> dronePlot d = plotAt length k ->
    Nat.iter n (flyStep length treeMap1) d = Nat.iter n (flyStep length treeMap2) d.
Proof.
  intros Hl Hagree. induction n as [|n IH]; intros k d Hk Hd; [reflexivity|].
  rewrite !Nat.iter_succ_r.
  assert (Hnext : getNextPlotCoordinate length (drone_x d) (drone_y d)
                  = plotAt length (k + 1)).
  { change (drone_x d) with (dronePlot d).1.
    change (drone_y d) with (dronePlot d).2.
    rewrite Hd. apply plotAt_next; lia. }
  rewrite (flyStep_agree length treeMap1 treeMap2 d Hagree).
  - apply (IH (k + 1)); [lia|]. rewrite flyStep_plot. exact Hnext.
  - rewrite Hnext. intros E. apply plotAt_start in E; lia.
Qed.

Lemma insert_delete_agree (treeMap : gmap string Z) (height x y : Z) :
  (x, y) <> (1, 1) ->
  <[generateTreeKey 1 1 := height]> treeMap !! generateTreeKey x y
  = delete (generateTreeKey 1 1) treeMap !! generateTreeKey x y.
Proof.
  intros Hne.
  assert (Hkey : generateTreeKey 1 1 <> generateTreeKey x y).
  { intros E. apply generateTreeKey_inj in E as [<- <-]. auto. }
  rewrite lookup_insert_ne, lookup_delete_ne by exact Hkey. reflexivity.
Qed.

(** C10: a tree on the starting plot changes nothing: the table with any
    height at (1, 1) and the table without an entry there give the same
    distance. *)
Theorem calculateFlyDistance_ignores_start (fuel : nat) (length width : Z)
    (treeMap : gmap string Z) (height : Z) :
  1 <= length -> 1 <= width -> (plots length width <= fuel)%nat ->
  exists total,
    calculateFlyDistance fuel length width
      (<[generateTreeKey 1 1 := height]> treeMap) = Some total /\
    calculateFlyDistance fuel length width
      (delete (generateTreeKey 1 1) treeMap) = Some total.
Proof.
  intros Hl Hw Hfuel. eexists. split.
  - apply calculateFlyDistance_run; assumption.
  - rewrite calculateFlyDistance_run by assumption. do 2 f_equal.
    unfold passes. destruct (Z.eqb_spec length 1) as [->|Hne].
    + rewrite !Nat.iter_succ_r. cbn [Nat.iter nat_rect].
      symmetry. apply flyStep_agree.
      * intros x y Hxy. apply insert_delete_agree, Hxy.
      * discriminate.
    + symmetry. apply (iter_agree length _ _ ltac:(lia)) with (k := 0).
      * intros x y Hxy. apply insert_delete_agree, Hxy.
      * lia.
      * rewrite plotAt_0 by lia. reflexivity.
Qed.

(** Two rows of three plots, a tree of height 9 put on the starting plot. *)
Lemma calculateFlyDistance_ignores_start_witness :
  exists total,
    calculateFlyDistance 6 3 2
      (<[generateTreeKey 1 1 := 9]> {[ "2,1"%string := 4 ]}) = Some total /\
    calculateFlyDistance 6 3 2
      (delete (generateTreeKey 1 1) {[ "2,1"%string := 4 ]}) = Some total.
Proof.
  apply (calculateFlyDistance_ignores_start 6 3 2); unfold plots; lia.
Defined.

(** ** The integers of a run

    On the inputs [Start] lets through, the variables of
    [calculateFlyDistance] stay far inside the range of a 64-bit [int], so
    that the arithmetic of [Z] is the arithmetic of the program. *)

Lemma iter_plot (length : Z) (treeMap : gmap string Z) :
  2 <= length ->
  forall (n : nat) (k : Z) (d : drone),
    0 <= k -> dronePlot d = plotAt length k ->
    dronePlot (Nat.iter n (flyStep length treeMap) d)
    = plotAt length (k + Z.of_nat n).
Proof.
  intros Hl. induction n as [|n IH]; intros k d Hk Hd.
  - rewrite Z.add_0_r. exact Hd.
  - rewrite Nat.iter_succ, flyStep_plot.
    change (drone_x ?e) with (dronePlot e).1.
    change (drone_y ?e) with (dronePlot e).2.
    rewrite (IH k d Hk Hd), plotAt_next by lia. f_equal. lia.
Qed.

Lemma flyStep_altitude (length : Z) (treeMap : gmap string Z) (d : drone) :
  heightsAccepted treeMap -> 1 <= currentAltitude d <= 31 ->
  1 <= currentAltitude (flyStep length treeMap d) <= 31 /\
  distance d <= distance (flyStep length treeMap d) <= distance d + 30.
Proof.
  intros HT Ha. unfold flyStep.
  destruct (getNextPlotCoordinate length (drone_x d) (drone_y d)) as [x y].
  destruct (treeMap !! generateTreeKey x y) as [h|] eqn:E.
  - apply HT in E. cbn [currentAltitude distance]. rewrite absInt_abs. lia.
  - destruct (Z.eqb_spec (currentAltitude d) 1);
      cbn [negb currentAltitude distance]; rewrite ?absInt_abs; lia.
Qed.

Lemma iter_altitude (length : Z) (treeMap : gmap string Z) (d : drone) (n : nat) :
  heightsAccepted treeMap -> 1 <= currentAltitude d <= 31 ->
  1 <= currentAltitude (Nat.iter n (flyStep length treeMap) d) <= 31 /\
  distance d <= distance (Nat.iter n (flyStep length treeMap) d)
             <= distance d + 30 * Z.of_nat n.
Proof.
  intros HT Ha. induction n as [|n [IHa IHd]]; [cbn; lia|].
  rewrite Nat.iter_succ.
  destruct (flyStep_altitude length treeMap _ HT IHa) as [Ha' Hd']. lia.
Qed.

Lemma calculateHorizontalDistance_bounds (length width : Z) :
  1 <= length -> 1 <= width ->
  0 <= calculateHorizontalDistance length width <= length * width.
Proof.
  intros Hl Hw. unfold calculateHorizontalDistance.
  destruct (Z.eqb_spec width 1) as [->|Hne]; [lia|].
  rewrite Z.quot_div_nonneg, Z.rem_mod_nonneg by lia.
  assert (0 <= width / 2 /\ width / 2 + 1 <= width)
    by (Z.div_mod_to_equations; lia).
  destruct (Z.eqb_spec (width mod 2) 0); cbn [negb]; nia.
Qed.

(** X15: after any number of the passes of a run on validated dimensions
    and heights, the drone is within one plot of the field, its altitude is
    at most 31, and the distance is below 2^63. *)
Lemma run_fits_int64 (length width : Z) (treeMap : gmap string Z) (n : nat) :
  1 <= length <= 50000 -> 1 <= width <= 50000 -> heightsAccepted treeMap ->
  (n <= passes length width)%nat ->
  let d := Nat.iter n (flyStep length treeMap) (takeOff length width) in
  1 <= drone_x d <= length + 1 /\ 1 <= drone_y d <= width + 1 /\
  1 <= currentAltitude d <= 31 /\
  fitsInt64 ((length - 1) * width) /\
  fitsInt64 (calculateHorizontalDistance length width * 10) /\
  fitsInt64 (distance d).
Proof.
  intros Hl Hw HT Hn d.
  pose proof (calculateHorizontalDistance_bounds length width ltac:(lia) ltac:(lia)) as Hh.
  destruct (iter_altitude length treeMap (takeOff length width) n HT) as [Ha Hd];
    [cbn; lia|].
  fold d in Ha, Hd. unfold takeOff in Hd. cbn [distance] in Hd.
  assert (Hlw : length * width <= 2500000000) by nia.
  assert (Hn' : Z.of_nat n <= 2500000000).
  { unfold passes, plots in Hn. destruct (length =? 1); lia. }
  assert (Hplot : 1 <= drone_x d <= length + 1 /\ 1 <= drone_y d <= width + 1).
  { unfold passes in Hn. destruct (Z.eqb_spec length 1) as [->|Hne].
    - destruct n as [|[|n]]; [cbn; lia| |lia].
      pose proof (flyStep_plot 1 treeMap (takeOff 1 width)) as E.
      change (dronePlot d = (2, 1)) in E.
      injection E as -> ->. lia.
    - pose proof (iter_plot length treeMap ltac:(lia) n 0 (takeOff length width)
                    ltac:(lia)) as E.
      rewrite plotAt_0 in E by lia. specialize (E eq_refl). fold d in E.
      rewrite Z.add_0_l in E. unfold plots in Hn.
      assert (Hcase : Z.of_nat n < length * width \/ Z.of_nat n = length * width)
        by lia.
      destruct Hcase as [Hlt|Heq].
      + destruct (plotAt_inField length width (Z.of_nat n) ltac:(lia) ltac:(lia))
          as [Hx Hy].
        rewrite <- E in Hx, Hy. cbn [dronePlot fst snd] in Hx, Hy. lia.
      + rewrite Heq in E. unfold plotAt in E.
        rewrite Z.mul_comm, Z.div_mul, Z.mod_mul in E by lia.
        injection E as -> ->. destruct (Z.even width); lia. }
  unfold fitsInt64. repeat split; try lia; try nia.
Qed.

(** ** The accumulator against the algorithm of the specification *)

Lemma flyLoop_reference (length width : Z) (treeMap : gmap string Z) :
  forall (fuel : nat) (d : drone),
    flyLoop fuel length width treeMap d
    = referenceLoop fuel length width
        (fun x y => treeMap !! generateTreeKey x y)
        (drone_x d) (drone_y d) (currentAltitude d) (distance d).
Proof.
  induction fuel as [|fuel IH]; intros d; cbn [flyLoop referenceLoop].
  - destruct (decide (drone_x d <= length /\ drone_y d <= width)) as [[Hx Hy]|Hn].
    + rewrite (proj2 (Z.leb_le _ _) Hx), (proj2 (Z.leb_le _ _) Hy). reflexivity.
    + destruct (Z.leb_spec (drone_x d) length), (Z.leb_spec (drone_y d) width);
        cbn [andb]; try reflexivity. exfalso. apply Hn. split; assumption.
  - destruct (decide (drone_x d <= length /\ drone_y d <= width)) as [[Hx Hy]|Hn].
    + rewrite (proj2 (Z.leb_le _ _) Hx), (proj2 (Z.leb_le _ _) Hy). cbn [andb].
      rewrite IH. unfold flyStep.
      destruct (getNextPlotCoordinate length (drone_x d) (drone_y d)) as [x1 y1].
      cbn [fst snd].
      destruct (treeMap !! generateTreeKey x1 y1) as [h|].
      * cbn [drone_x drone_y currentAltitude distance].
        rewrite absInt_abs. reflexivity.
      * destruct (decide (currentAltitude d <> 1)) as [Ha|Ha].
        -- rewrite (proj2 (Z.eqb_neq _ _) Ha).
           cbn [negb drone_x drone_y currentAltitude distance].
           rewrite absInt_abs. reflexivity.
        -- assert (Ha' : currentAltitude d = 1) by lia.
           rewrite (proj2 (Z.eqb_eq _ _) Ha'). reflexivity.
    + destruct (Z.leb_spec (drone_x d) length), (Z.leb_spec (drone_y d) width);
        cbn [andb]; try reflexivity. exfalso. apply Hn. split; assumption.
Qed.

(** C2: [calculateFlyDistance] is the algorithm of section 4.3 of the
    specification, run on the table read through [generateTreeKey]: the same
    distance when either returns, and neither returns on less fuel than the
    other. *)
Theorem calculateFlyDistance_refines_reference (fuel : nat) (length width : Z)
    (treeMap : gmap string Z) :
  calculateFlyDistance fuel length width treeMap
  = referenceFlyDistance fuel length width
      (fun x y => treeMap !! generateTreeKey x y).
Proof.
  unfold calculateFlyDistance, referenceFlyDistance.
  rewrite flyLoop_reference. cbn [drone_x drone_y currentAltitude distance].
  f_equal. lia.
Qed.

(** ** End-to-end values *)

Lemma buildTreeMap_snoc (trees : list (Z * Z * Z)) (x y height : Z) :
  buildTreeMap (trees ++ [(x, y, height)])
  = <[generateTreeKey x y := height]> (buildTreeMap trees).
Proof. unfold buildTreeMap. rewrite foldl_app. reflexivity. Qed.

(** When no plot is given twice the table is the one of the entries,
    whatever their order. *)
Lemma buildTreeMap_list_to_map (trees : list (Z * Z * Z)) :
  NoDup (treeEntry <$> trees).*1 ->
  buildTreeMap trees = list_to_map (treeEntry <$> trees).
Proof.
  induction trees as [|[[x y] height] trees IH] using rev_ind; intros Hnd.
  - reflexivity.
  - rewrite !fmap_app in Hnd. apply NoDup_app in Hnd as (Hnd & Hfresh & _).
    rewrite buildTreeMap_snoc, fmap_app, IH by exact Hnd.
    cbn [fmap list_fmap treeEntry].
    rewrite list_to_map_snoc; [reflexivity|].
    intros Hin. apply (Hfresh _ Hin). cbn. left.
Qed.

Lemma buildTreeMap_permutation (trees1 trees2 : list (Z * Z * Z)) :
  NoDup (treeEntry <$> trees1).*1 -> trees1 ≡ₚ trees2 ->
  buildTreeMap trees1 = buildTreeMap trees2.
Proof.
  intros Hnd Hperm.
  assert (Hperm' : treeEntry <$> trees1 ≡ₚ treeEntry <$> trees2)
    by (rewrite Hperm; reflexivity).
  assert (Hnd' : NoDup (treeEntry <$> trees2).*1) by (rewrite <- Hperm'; exact Hnd).
  rewrite !buildTreeMap_list_to_map by assumption.
  apply list_to_map_proper; assumption.
Qed.

(** C7: a row of ten plots without trees costs 92; a row of five plots with
    trees of heights 5, 3 and 4 on its second, third and fourth plot costs
    54, in whatever order the three trees were entered; with three trees of
    height 10 there it costs 62. *)
Theorem calculateFlyDistance_end_to_end (fuel : nat) (trees : list (Z * Z * Z)) :
  (10 <= fuel)%nat ->
  trees ≡ₚ [(2, 1, 5); (3, 1, 3); (4, 1, 4)] ->
  calculateFlyDistance fuel 10 1 ∅ = Some 92 /\
  calculateFlyDistance fuel 5 1 (buildTreeMap trees) = Some 54 /\
  calculateFlyDistance fuel 5 1
    (buildTreeMap [(2, 1, 10); (3, 1, 10); (4, 1, 10)]) = Some 62.
Proof.
  intros Hfuel Hperm.
  assert (Hnd : NoDup (treeEntry <$> [(2, 1, 5); (3, 1, 3); (4, 1, 4)]).*1).
  { refine (@bool_decide_unpack _ (NoDup_dec _) _). vm_compute. exact I. }
  symmetry in Hperm.
  rewrite <- (buildTreeMap_permutation _ trees Hnd Hperm).
  repeat split; rewrite calculateFlyDistance_run by (unfold plots; lia);
    vm_compute; reflexivity.
Qed.

(** The order of the second test of [calculateFlyDistance]: (3, 1), (4, 1),
    then (2, 1). *)
Lemma calculateFlyDistance_end_to_end_witness :
  calculateFlyDistance 10 10 1 ∅ = Some 92 /\
  calculateFlyDistance 10 5 1
    (buildTreeMap [(3, 1, 3); (4, 1, 4); (2, 1, 5)]) = Some 54 /\
  calculateFlyDistance 10 5 1
    (buildTreeMap [(2, 1, 10); (3, 1, 10); (4, 1, 10)]) = Some 62.
Proof.
  apply (calculateFlyDistance_end_to_end 10 [(3, 1, 3); (4, 1, 4); (2, 1, 5)]).
  - lia.
  - apply Permutation_sym, Permutation_cons_append.
Defined.

(** ** The plots the sweep visits *)

Lemma traversal_plotAt (length : Z) :
  2 <= length ->
  forall (n : nat) (k x y : Z), 0 <= k -> plotAt length k = (x, y) ->
    traversal n length x y
    = (fun i : nat => plotAt length (k + Z.of_nat i)) <$> seq 0 (S n).
Proof.
  intros Hl. induction n as [|n IH]; intros k x y Hk Hxy.
  - cbn [traversal seq fmap list_fmap]. rewrite Z.add_0_r, Hxy. reflexivity.
  - cbn [traversal].
    pose proof (plotAt_next length k Hl Hk) as Hnext.
    rewrite Hxy in Hnext. cbn [fst snd] in Hnext. rewrite Hnext.
    destruct (plotAt length (k + 1)) as [x1 y1] eqn:E.
    rewrite (IH (k + 1) x1 y1) by (lia || assumption).
    change (seq 0 (S (S n))) with (0%nat :: seq 1 (S n)).
    rewrite <- fmap_S_seq, fmap_cons, <- list_fmap_compose.
    rewrite Z.add_0_r, Hxy. f_equal.
    apply list_fmap_ext. intros _ i _. cbn [compose]. f_equal. lia.
Qed.

(** X14: on a field at least two plots long the sweep of the specification
    holds: [length * width - 1] steps from (1, 1) meet every plot of the
    field, and no plot twice. *)
Lemma traversal_enumerates (length width : Z) :
  2 <= length -> 1 <= width ->
  NoDup (traversal (plots length width - 1) length 1 1) /\
  (forall p, p ∈ traversal (plots length width - 1) length 1 1
             <-> inField length width p).
Proof.
  intros Hl Hw.
  assert (Hn : S (plots length width - 1) = plots length width)
    by (unfold plots; nia).
  rewrite (traversal_plotAt length Hl _ 0 1 1 ltac:(lia) (plotAt_0 length Hl)), Hn.
  split.
  - apply NoDup_fmap_2_strong; [|apply NoDup_seq].
    intros i j _ _ Hij. apply plotAt_inj in Hij; lia.
  - intros [x y]. rewrite list_elem_of_fmap. split.
    + intros (i & -> & Hi). apply elem_of_seq in Hi.
      apply plotAt_inField; [lia|]. unfold plots in Hi. nia.
    + intros Hin. destruct (plotAt_surj length width x y Hl Hin) as (k & Hk & Ek).
      exists (Z.to_nat k). split.
      * rewrite Z.add_0_l, Z2Nat.id by lia. auto.
      * apply elem_of_seq. unfold plots. lia.
Qed.

(** C1, on a field one plot long and two wide: the only step goes from
    (1, 1) east to (2, 1), which is off the field, and the plot (1, 2) of the
    field is not met; a tree on (1, 2) is then not counted. *)
Theorem traversal_single_column_leaves_field :
  traversal (plots 1 2 - 1) 1 1 1 = [(1, 1); (2, 1)] /\
  inField 1 2 (1, 2) /\
  ((1, 2) ∉ traversal (plots 1 2 - 1) 1 1 1) /\
  ~ inField 1 2 (2, 1) /\
  calculateFlyDistance 2 1 2 (buildTreeMap [(1, 2, 5)]) = Some 12 /\
  calculateFlyDistance 2 1 2 ∅ = Some 12.
Proof.
  split; [reflexivity|]. split; [unfold inField; cbn; lia|].
  split.
  - change (traversal (plots 1 2 - 1) 1 1 1) with [(1, 1); (2, 1)].
    rewrite !not_elem_of_cons. repeat split; try discriminate.
    apply not_elem_of_nil.
  - split; [unfold inField; cbn; lia|].
    split; vm_compute; reflexivity.
Qed.

(** ** Validation in [Start] *)

Lemma validateInitialInputs_spec (length width count : Z) :
  validateInitialInputs length width count = true
  <-> dimensionsAccepted length width count.
Proof.
  unfold validateInitialInputs, dimensionsAccepted.
  rewrite !andb_true_iff, !Z.geb_le, !Z.leb_le. lia.
Qed.

(** The reading loop stops at the first height that is not between 1 and
    30, having read that triple and none after it. *)
Lemma readTrees_refuses (util : nat -> Z * Z * Z) :
  forall (remaining i0 : nat) (treeMap : gmap string Z) (i : nat),
    (i0 <= i < i0 + remaining)%nat -> ~ heightAccepted (util (S i)) ->
    exists first,
      (i0 <= first <= i)%nat /\
      ~ heightAccepted (util (S first)) /\
      (forall j, (i0 <= j < first)%nat -> heightAccepted (util (S j))) /\
      readTrees util remaining i0 treeMap = (S first, None).
Proof.
  induction remaining as [|remaining IH]; intros i0 treeMap i Hi Hbad; [lia|].
  cbn [readTrees].
  destruct (util (S i0)) as [[x y] height] eqn:E.
  destruct (orb (height <? 1) (height >? 30)) eqn:Hcheck.
  - exists i0. split; [lia|]. split; [|split; [intros j Hj; lia|reflexivity]].
    unfold heightAccepted. rewrite E. cbn [snd].
    apply orb_true_iff in Hcheck as [H|H];
      [apply Z.ltb_lt in H|apply Z.gtb_lt in H]; lia.
  - apply orb_false_iff in Hcheck as [H1 H2].
    apply Z.ltb_ge in H1. rewrite Z.gtb_ltb in H2. apply Z.ltb_ge in H2.
    assert (Hne : i <> i0).
    { intros ->. apply Hbad. unfold heightAccepted. rewrite E. cbn [snd]. lia. }
    destruct (IH (S i0) (<[generateTreeKey x y := height]> treeMap) i
                ltac:(lia) Hbad) as (first & Hf & Hfb & Hfa & Hrun).
    exists first. split; [lia|]. split; [assumption|]. split; [|assumption].
    intros j Hj. destruct (Nat.eq_dec j i0) as [->|Hj'].
    + unfold heightAccepted. rewrite E. cbn [snd]. lia.
    + apply Hfa. lia.
Qed.

(** The table the reading loop hands over holds accepted heights only. *)
Lemma readTrees_heightsAccepted (util : nat -> Z * Z * Z) :
  forall (remaining i : nat) (treeMap treeMap' : gmap string Z) (n : nat),
    heightsAccepted treeMap ->
    readTrees util remaining i treeMap = (n, Some treeMap') ->
    heightsAccepted treeMap'.
Proof.
  induction remaining as [|remaining IH]; intros i treeMap treeMap' n HT Hrun;
    cbn [readTrees] in Hrun.
  - injection Hrun as _ <-. exact HT.
  - destruct (util (S i)) as [[x y] height].
    destruct (orb (height <? 1) (height >? 30)) eqn:Hcheck; [discriminate|].
    apply orb_false_iff in Hcheck as [H1 H2].
    apply Z.ltb_ge in H1. rewrite Z.gtb_ltb in H2. apply Z.ltb_ge in H2.
    apply (IH _ _ _ _) with (2 := Hrun).
    intros key h Hkey. destruct (decide (generateTreeKey x y = key)) as [E|Hne].
    + subst key. rewrite lookup_insert_eq in Hkey. injection Hkey as <-. lia.
    + rewrite lookup_insert_ne in Hkey by exact Hne. exact (HT key h Hkey).
Qed.

(** C5, as the code has it: when length, width or count is not between 1
    and 50000, [Start] reads nothing more, writes FAIL to the error stream
    and exits with status 1; when they are and one of the [count] triples
    has a height that is not between 1 and 30, [Start] does the same at the
    first such triple, reading none after it.  Nothing is printed, and no
    fuel is spent on the field.  The coordinates of a triple are not
    looked at. *)
Theorem Start_fails_on_invalid_input (fuel : nat) (util : nat -> Z * Z * Z)
    (length width count : Z) :
  util O = (length, width, count) ->
  (~ dimensionsAccepted length width count ->
     Start fuel util = Some (failedRun 1)) /\
  (dimensionsAccepted length width count ->
   forall i, (i < Z.to_nat count)%nat -> ~ heightAccepted (util (S i)) ->
     exists first,
       (first <= i)%nat /\
       ~ heightAccepted (util (S first)) /\
       (forall j, (j < first)%nat -> heightAccepted (util (S j))) /\
       Start fuel util = Some (failedRun (S (S first)))).
Proof.
  intros E. unfold Start. rewrite E. split.
  - intros Hbad. rewrite <- validateInitialInputs_spec in Hbad.
    apply not_true_is_false in Hbad. rewrite Hbad. reflexivity.
  - intros Hok i Hi Hbad. apply validateInitialInputs_spec in Hok. rewrite Hok.
    cbn [negb].
    destruct (readTrees_refuses util (Z.to_nat count) O ∅ i ltac:(lia) Hbad)
      as (first & Hf & Hfb & Hfa & Hrun).
    exists first. rewrite Hrun.
    split; [lia|]. split; [assumption|]. split; [|reflexivity].
    intros j Hj. apply Hfa. lia.
Qed.

(** The test of [TestApp_Start] with a tree of height 31. *)
Lemma Start_fails_on_invalid_input_witness :
  exists first,
    (first <= 0)%nat /\
    ~ heightAccepted (invalidHeightTestUtil (S first)) /\
    (forall j, (j < first)%nat -> heightAccepted (invalidHeightTestUtil (S j))) /\
    Start 0 invalidHeightTestUtil = Some (failedRun (S (S first))).
Proof.
  apply (Start_fails_on_invalid_input 0 invalidHeightTestUtil 1 2 1 eq_refl).
  - unfold dimensionsAccepted. lia.
  - cbn. lia.
  - unfold heightAccepted. cbn. lia.
Defined.

(** C5 as stated fails: the tree of the success test of [TestApp_Start] is
    entered at (5, 2), which is not a plot of the field 1 by 2, and [Start]
    prints a distance and does not fail. *)
Lemma Start_accepts_plot_outside_field :
  successTestUtil 0 = (1, 2, 1) /\
  successTestUtil 1 = (5, 2, 2) /\
  ~ inField 1 2 (5, 2) /\
  Start 2 successTestUtil = Some (Run 2 [12] [] None) /\
  (forall fuel n, Start fuel successTestUtil <> Some (failedRun n)).
Proof.
  split; [reflexivity|]. split; [reflexivity|].
  split; [unfold inField; cbn; lia|].
  split; [vm_compute; reflexivity|].
  intros fuel n. unfold Start.
  change (successTestUtil 0) with (1, 2, 1). cbv beta iota.
  change (validateInitialInputs 1 2 1) with true. cbn [negb].
  change (readTrees successTestUtil (Z.to_nat 1) 0 ∅)
    with (1%nat, Some (<[generateTreeKey 5 2 := 2]> (∅ : gmap string Z))).
  cbv beta iota.
  destruct (calculateFlyDistance fuel 1 2 (<[generateTreeKey 5 2 := 2]> ∅));
    discriminate.
Qed.

(** * Further properties of [app.go] *)

(** ** [absInt] *)

(** X1: for an input above the least 64-bit integer, [absInt] returns a
    64-bit integer that is not negative, returns 0 only for 0, gives a number
    and its opposite the same value, and returns the input or its opposite. *)
Theorem absInt_nonneg_symmetric (input : Z) :
  - 2 ^ 63 < input < 2 ^ 63 ->
  0 <= absInt input /\ fitsInt64 (absInt input) /\
  (absInt input = 0 <-> input = 0) /\
  absInt (- input) = absInt input /\
  (absInt input = input \/ absInt input = - input).
Proof. intros H. unfold fitsInt64. rewrite !absInt_abs. lia. Qed.

(** The altitude change from a tree of height 30 down to the ground. *)
Lemma absInt_nonneg_symmetric_witness :
  0 <= absInt (-30) /\ fitsInt64 (absInt (-30)) /\
  (absInt (-30) = 0 <-> -30 = 0) /\
  absInt (- -30) = absInt (-30) /\
  (absInt (-30) = -30 \/ absInt (-30) = - -30).
Proof. apply (absInt_nonneg_symmetric (-30)). lia. Defined.

(** ** [getNextPlotCoordinate] *)

(** X2: for coordinates strictly inside the 64-bit range and any [length],
    the stepper moves to a neighbouring plot: one plot east, one plot west or
    one plot north, never south, never diagonally, never staying; it goes
    north only from column 1 or column [length]; and the plot it answers is
    made of 64-bit integers. *)
Theorem getNextPlotCoordinate_unit_step (length x y : Z) :
  insideInt64 x -> insideInt64 y ->
  let p := getNextPlotCoordinate length x y in
  ((p.1 = x + 1 /\ p.2 = y) \/ (p.1 = x - 1 /\ p.2 = y) \/
   (p.1 = x /\ p.2 = y + 1)) /\
  (p.2 = y + 1 -> x = 1 \/ x = length) /\
  fitsInt64 p.1 /\ fitsInt64 p.2.
Proof.
  unfold insideInt64, fitsInt64, getNextPlotCoordinate. intros Hx Hy.
  destruct (Z.eqb_spec x 1), (Z.eqb_spec x length), (Z.rem y 2 =? 0);
    cbn [fst snd]; lia.
Qed.

(** An interior column of a field four plots long, on its second row. *)
Lemma getNextPlotCoordinate_unit_step_witness :
  let p := getNextPlotCoordinate 4 2 2 in
  ((p.1 = 2 + 1 /\ p.2 = 2) \/ (p.1 = 2 - 1 /\ p.2 = 2) \/
   (p.1 = 2 /\ p.2 = 2 + 1)) /\
  (p.2 = 2 + 1 -> 2 = 1 \/ 2 = 4) /\
  fitsInt64 p.1 /\ fitsInt64 p.2.
Proof.
  apply (getNextPlotCoordinate_unit_step 4 2 2); unfold insideInt64; lia.
Defined.

(** X3: on a field at least two plots long, from a column of the field
    and a row strictly inside the 64-bit range, the stepper keeps the drone
    between column 1 and column [length], and it leaves a row only from the
    end of its sweep: from column [length] on an odd row, from column 1 on an
    even row. *)
Theorem getNextPlotCoordinate_keeps_columns (length x y : Z) :
  2 <= length < 2 ^ 63 -> 1 <= x <= length -> insideInt64 y ->
  let p := getNextPlotCoordinate length x y in
  1 <= p.1 <= length /\
  (p.2 = y + 1 <-> (Z.odd y = true /\ x = length) \/ (Z.even y = true /\ x = 1)).
Proof.
  intros Hl Hx _. unfold getNextPlotCoordinate. rewrite rem_2_even, <- Z.negb_even.
  destruct (Z.eqb_spec x 1), (Z.eqb_spec x length), (Z.even y);
    cbn [fst snd negb]; split; try lia;
    (split; [intros; try lia; intuition (lia || congruence)
            |intros [[? ?]|[? ?]]; try lia; try discriminate]).
Qed.

(** The east edge of a field four plots long, on its first row. *)
Lemma getNextPlotCoordinate_keeps_columns_witness :
  let p := getNextPlotCoordinate 4 4 1 in
  1 <= p.1 <= 4 /\
  (p.2 = 1 + 1 <-> (Z.odd 1 = true /\ 4 = 4) \/ (Z.even 1 = true /\ 4 = 1)).
Proof.
  apply (getNextPlotCoordinate_keeps_columns 4 4 1); unfold insideInt64; lia.
Defined.

(** ** [calculateHorizontalDistance] *)

(** X4: for dimensions between 1 and 50000, the closed form never counts
    more steps than the [length * width - 1] steps the sweep of the field
    takes, and it counts exactly that many only on fields of at most three
    rows. *)
Theorem calculateHorizontalDistance_against_steps (length width : Z) :
  1 <= length <= 50000 -> 1 <= width <= 50000 ->
  calculateHorizontalDistance length width <= length * width - 1 /\
  (calculateHorizontalDistance length width = length * width - 1 <-> width <= 3).
Proof.
  intros Hl Hw. unfold calculateHorizontalDistance.
  destruct (Z.eqb_spec width 1) as [->|Hne]; [lia|].
  rewrite Z.quot_div_nonneg, Z.rem_mod_nonneg by lia.
  destruct (Z.eqb_spec (width mod 2) 0); cbn [negb];
    Z.div_mod_to_equations; nia.
Qed.

(** Five plots by four rows: 18 against the 19 steps of the sweep. *)
Lemma calculateHorizontalDistance_against_steps_witness :
  calculateHorizontalDistance 5 4 <= 5 * 4 - 1 /\
  (calculateHorizontalDistance 5 4 = 5 * 4 - 1 <-> 4 <= 3).
Proof. apply (calculateHorizontalDistance_against_steps 5 4); lia. Defined.

(** ** [generateTreeKey] *)

(** X5: over all integers, negative and zero included, two plots have the
    same key exactly when they are the same plot, and a key holds one comma
    only: the part before its first comma is the numeral of [x]. *)
Theorem generateTreeKey_key_of_one_plot (x1 y1 x2 y2 : Z) :
  (generateTreeKey x1 y1 = generateTreeKey x2 y2 <-> x1 = x2 /\ y1 = y2) /\
  commaFree (sprintf_d x1) = true /\ commaFree (sprintf_d y1) = true /\
  generateTreeKey x1 y1 = sprintf_d x1 +:+ "," +:+ sprintf_d y1.
Proof.
  split; [split|].
  - apply generateTreeKey_inj.
  - intros [-> ->]. reflexivity.
  - auto using commaFree_sprintf_d.
Qed.

(** ** The passes of the loop *)

(** With less fuel than the plots that remain, the loop is still on the
    field when the fuel is gone. *)
Lemma flyLoop_starved (length width : Z) (treeMap : gmap string Z) :
  2 <= length -> 0 <= width ->
  forall (fuel : nat) (k : Z) (d : drone),
    0 <= k -> dronePlot d = plotAt length k ->
    k + Z.of_nat fuel < length * width ->
    flyLoop fuel length width treeMap d = None.
Proof.
  intros Hl Hw. induction fuel as [|fuel IH]; intros k d Hk Hd Hlt.
  - destruct (plotAt_inField length width k Hl ltac:(lia)) as [Hx Hy].
    rewrite <- Hd in Hx, Hy. cbn [dronePlot fst snd] in Hx, Hy.
    cbn [flyLoop].
    rewrite (proj2 (Z.leb_le _ _) (proj2 Hx)), (proj2 (Z.leb_le _ _) (proj2 Hy)).
    reflexivity.
  - destruct (plotAt_inField length width k Hl ltac:(lia)) as [Hx Hy].
    rewrite <- Hd in Hx, Hy. cbn [dronePlot fst snd] in Hx, Hy.
    rewrite flyLoop_pass by lia.
    apply (IH (k + 1)); try lia.
    rewrite flyStep_plot.
    change (drone_x d) with (dronePlot d).1.
    change (drone_y d) with (dronePlot d).2.
    rewrite Hd. apply plotAt_next; lia.
Qed.

Lemma passes_le_plots (length width : Z) :
  1 <= length -> 1 <= width -> (passes length width <= plots length width)%nat.
Proof.
  intros Hl Hw. unfold passes. pose proof (plots_positive length width Hl Hw).
  destruct (length =? 1); lia.
Qed.

(** The result of [calculateFlyDistance] for every amount of fuel. *)
Lemma calculateFlyDistance_passes (fuel : nat) (length width : Z)
    (treeMap : gmap string Z) :
  1 <= length -> 1 <= width ->
  calculateFlyDistance fuel length width treeMap
  = if decide (passes length width <= fuel)%nat
    then Some (distance (Nat.iter (passes length width) (flyStep length treeMap)
                                  (takeOff length width)))
    else None.
Proof.
  intros Hl Hw. unfold calculateFlyDistance, passes, takeOff.
  destruct (Z.eqb_spec length 1) as [->|Hne].
  - destruct (decide (1 <= fuel)%nat) as [Hf|Hf].
    + apply flyLoop_single_column; lia.
    + assert (fuel = O) by lia. subst fuel. cbn [flyLoop drone_x drone_y].
      rewrite (proj2 (Z.leb_le 1 width) Hw). reflexivity.
  - destruct (decide (plots length width <= fuel)%nat) as [Hf|Hf].
    + apply (flyLoop_sweep length width treeMap ltac:(lia) ltac:(lia) _ 0);
        try lia.
      * unfold plots. nia.
      * rewrite plotAt_0 by lia. reflexivity.
    + apply (flyLoop_starved length width treeMap ltac:(lia) ltac:(lia) _ 0);
        try lia.
      * rewrite plotAt_0 by lia. reflexivity.
      * unfold plots in Hf. nia.
Qed.

(** X6: for dimensions between 1 and 50000 the loop of
    [calculateFlyDistance] goes round exactly once per plot of the field, and
    exactly once when the field is one plot long: the function returns with
    that many passes of fuel and with no fewer. *)
Theorem calculateFlyDistance_pass_count (fuel : nat) (length width : Z)
    (treeMap : gmap string Z) :
  1 <= length <= 50000 -> 1 <= width <= 50000 ->
  (is_Some (calculateFlyDistance fuel length width treeMap)
   <-> (passes length width <= fuel)%nat) /\
  passes length width
  = (if decide (length = 1) then 1%nat else Z.to_nat (length * width)).
Proof.
  intros Hl Hw. rewrite calculateFlyDistance_passes by lia. split.
  - destruct (decide (passes length width <= fuel)%nat) as [Hf|Hf].
    + split; [auto|eauto].
    + split; [intros [v Hv]; discriminate|contradiction].
  - unfold passes, plots.
    destruct (Z.eqb_spec length 1), (decide (length = 1)); congruence.
Qed.

(** Three rows of four plots, fuel for eleven passes: one short. *)
Lemma calculateFlyDistance_pass_count_witness :
  (is_Some (calculateFlyDistance 11 4 3 ∅) <-> (passes 4 3 <= 11)%nat) /\
  passes 4 3 = (if decide (4 = 1) then 1%nat else Z.to_nat (4 * 3)).
Proof. apply (calculateFlyDistance_pass_count 11 4 3 ∅); lia. Defined.

(** X7: when a dimension is below 1, both being between -50000 and 50000,
    the loop is not entered: whatever the table and the fuel, the result is
    the initial distance, a 64-bit integer. *)
Theorem calculateFlyDistance_no_field (fuel : nat) (length width : Z)
    (treeMap : gmap string Z) :
  - 50000 <= length <= 50000 -> - 50000 <= width <= 50000 ->
  length < 1 \/ width < 1 ->
  calculateFlyDistance fuel length width treeMap
  = Some (2 + 10 * calculateHorizontalDistance length width) /\
  fitsInt64 ((length - 1) * width) /\
  fitsInt64 (calculateHorizontalDistance length width * 10) /\
  fitsInt64 (2 + 10 * calculateHorizontalDistance length width).
Proof.
  intros Hl Hw H. split.
  - unfold calculateFlyDistance.
    rewrite flyLoop_exit by (cbn [drone_x drone_y]; lia).
    cbn [distance]. f_equal. lia.
  - assert (Hq : - 25000 <= Z.quot width 2 <= 25000)
      by (Z.quot_rem_to_equations; lia).
    assert (Hp : - 2500050000 <= (length - 1) * width <= 2500050000) by nia.
    unfold fitsInt64, calculateHorizontalDistance.
    destruct (width =? 1); [lia|].
    destruct (negb (Z.rem width 2 =? 0)); lia.
Qed.

(** A field of width 0, no fuel, a tree on the starting plot. *)
Lemma calculateFlyDistance_no_field_witness :
  calculateFlyDistance 0 3 0 {[ "1,1"%string := 4 ]}
  = Some (2 + 10 * calculateHorizontalDistance 3 0) /\
  fitsInt64 ((3 - 1) * 0) /\
  fitsInt64 (calculateHorizontalDistance 3 0 * 10) /\
  fitsInt64 (2 + 10 * calculateHorizontalDistance 3 0).
Proof. apply (calculateFlyDistance_no_field 0 3 0); lia. Defined.

(** ** The distance as the climbs along the path *)

Lemma flyStep_required (length : Z) (treeMap : gmap string Z) (d : drone) :
  let p := getNextPlotCoordinate length (drone_x d) (drone_y d) in
  flyStep length treeMap d
  = Drone p.1 p.2 (requiredAltitude treeMap p)
      (distance d + Z.abs (requiredAltitude treeMap p - currentAltitude d)).
Proof.
  unfold flyStep, requiredAltitude.
  destruct (getNextPlotCoordinate length (drone_x d) (drone_y d)) as [x y].
  cbn [fst snd].
  destruct (treeMap !! generateTreeKey x y) as [h|].
  - rewrite absInt_abs. reflexivity.
  - destruct (Z.eqb_spec (currentAltitude d) 1) as [E|E]; cbn [negb].
    + rewrite E. f_equal. lia.
    + rewrite absInt_abs. f_equal. lia.
Qed.

Lemma traversal_head (steps : nat) (length x y : Z) :
  traversal steps length x y = (x, y) :: tail (traversal steps length x y).
Proof. destruct steps; reflexivity. Qed.

Lemma traversal_length (steps : nat) (length x y : Z) :
  List.length (traversal steps length x y) = S steps.
Proof.
  revert x y. induction steps as [|steps IH]; intros x y; [reflexivity|].
  cbn [traversal]. destruct (getNextPlotCoordinate length x y) as [x1 y1].
  cbn [List.length]. rewrite IH. reflexivity.
Qed.

(** After [n] passes the distance has grown by the climbs over the plots
    the stepper reached. *)
Lemma iter_climbs (length : Z) (treeMap : gmap string Z) :
  forall (n : nat) (d : drone),
    distance (Nat.iter n (flyStep length treeMap) d)
    = distance d
      + climbs (currentAltitude d)
          (requiredAltitude treeMap
             <$> tail (traversal n length (drone_x d) (drone_y d))).
Proof.
  induction n as [|n IH]; intros d.
  - cbn. lia.
  - rewrite Nat.iter_succ_r, IH. cbn [traversal].
    rewrite (flyStep_required length treeMap d).
    destruct (getNextPlotCoordinate length (drone_x d) (drone_y d)) as [x1 y1].
    cbn [fst snd drone_x drone_y currentAltitude distance tail].
    rewrite (traversal_head n length x1 y1) at 2.
    rewrite fmap_cons. cbn [climbs]. lia.
Qed.

(** The table of triples with accepted heights holds accepted heights. *)
Lemma buildTreeMap_heightsAccepted (trees : list (Z * Z * Z)) :
  Forall heightAccepted trees -> heightsAccepted (buildTreeMap trees).
Proof.
  induction trees as [|[[x y] height] trees IH] using rev_ind; intros Hall.
  - intros key h H. unfold buildTreeMap in H. cbn in H.
    rewrite lookup_empty in H. discriminate.
  - apply Forall_app in Hall as [Hall Hlast].
    apply Forall_cons_1 in Hlast as [Hlast _]. unfold heightAccepted in Hlast.
    cbn [snd] in Hlast.
    rewrite buildTreeMap_snoc. intros key h H.
    destruct (decide (generateTreeKey x y = key)) as [E|E].
    + subst key. rewrite lookup_insert_eq in H. injection H as <-. exact Hlast.
    + rewrite lookup_insert_ne in H by exact E. exact (IH Hall key h H).
Qed.

(** X8: on a field of dimensions between 1 and 50000 and over a table of
    heights between 1 and 30, the distance is the take-off and the landing,
    ten per unit of [calculateHorizontalDistance], and the climbs and descents
    between the altitudes required over the plots the loop looks up, starting
    from altitude 1.  There are as many of those plots as passes. *)
Theorem calculateFlyDistance_climbs (fuel : nat) (length width : Z)
    (treeMap : gmap string Z) :
  1 <= length <= 50000 -> 1 <= width <= 50000 -> heightsAccepted treeMap ->
  (passes length width <= fuel)%nat ->
  calculateFlyDistance fuel length width treeMap
  = Some (2 + 10 * calculateHorizontalDistance length width
          + climbs 1 (requiredAltitude treeMap <$> visited length width)) /\
  List.length (visited length width) = passes length width.
Proof.
  intros Hl Hw _ Hfuel. rewrite calculateFlyDistance_passes by lia.
  destruct (decide (passes length width <= fuel)%nat); [|contradiction].
  split.
  - rewrite iter_climbs. unfold takeOff, visited.
    cbn [distance currentAltitude drone_x drone_y]. f_equal. lia.
  - unfold visited.
    pose proof (traversal_length (passes length width) length 1 1) as E.
    rewrite traversal_head in E. cbn [List.length] in E. lia.
Qed.

(** The row of five plots of the tests, trees of heights 5, 3 and 4. *)
Lemma calculateFlyDistance_climbs_witness :
  calculateFlyDistance 5 5 1 (buildTreeMap [(2, 1, 5); (3, 1, 3); (4, 1, 4)])
  = Some (2 + 10 * calculateHorizontalDistance 5 1
          + climbs 1 (requiredAltitude
                        (buildTreeMap [(2, 1, 5); (3, 1, 3); (4, 1, 4)])
                        <$> visited 5 1)) /\
  List.length (visited 5 1) = passes 5 1.
Proof.
  apply (calculateFlyDistance_climbs 5 5 1); try lia.
  - apply buildTreeMap_heightsAccepted.
    repeat constructor; unfold heightAccepted; cbn [snd]; lia.
  - vm_compute. lia.
Defined.

(** ** The plots the loop looks up *)

Lemma visited_plotAt (length width : Z) :
  2 <= length -> 1 <= width ->
  visited length width
  = (fun i : nat => plotAt length (Z.of_nat i)) <$> seq 1 (plots length width).
Proof.
  intros Hl Hw. unfold visited, passes.
  destruct (Z.eqb_spec length 1) as [E|_]; [lia|].
  rewrite (traversal_plotAt length Hl _ 0 1 1 ltac:(lia) (plotAt_0 length Hl)).
  cbn [seq fmap list_fmap tail]. reflexivity.
Qed.

Lemma plotAt_last (length width : Z) :
  2 <= length -> 1 <= width ->
  plotAt length (length * width)
  = (if Z.even width then 1 else length, width + 1).
Proof.
  intros Hl Hw. unfold plotAt.
  rewrite Z.mul_comm, Z.div_mul, Z.mod_mul by lia.
  destruct (Z.even width); f_equal; lia.
Qed.

(** X9: for dimensions between 1 and 50000: on a field at least two plots
    long the loop looks up every plot of the field except (1, 1), each once,
    and one plot more, just north of the field: above column 1 when the
    number of rows is even, above column [length] when it is odd.  On a field
    one plot long it looks up the plot (2, 1) and no other. *)
Theorem visited_plots (length width : Z) :
  1 <= length <= 50000 -> 1 <= width <= 50000 ->
  NoDup (visited length width) /\
  (forall p, p ∈ visited length width <->
     if decide (length = 1) then p = (2, 1)
     else (inField length width p /\ p <> (1, 1))
          \/ p = (if Z.even width then 1 else length, width + 1)).
Proof.
  intros [Hl _] [Hw _]. destruct (decide (length = 1)) as [->|Hne].
  - change (visited 1 width) with [(2, 1)]. split.
    + apply NoDup_singleton.
    + intros p. apply list_elem_of_singleton.
  - assert (Hl2 : 2 <= length) by lia.
    rewrite visited_plotAt by lia. split.
    + apply NoDup_fmap_2_strong; [|apply NoDup_seq].
      intros i j _ _ Hij. apply plotAt_inj in Hij; lia.
    + intros p. rewrite list_elem_of_fmap. split.
      * intros (i & -> & Hi). apply elem_of_seq in Hi. unfold plots in Hi.
        assert (Hcase : Z.of_nat i < length * width \/ Z.of_nat i = length * width)
          by lia.
        destruct Hcase as [Hlt|Heq].
        -- left. split; [apply plotAt_inField; lia|].
           intros E. apply plotAt_start in E; lia.
        -- right. rewrite Heq. apply plotAt_last; lia.
      * intros [[Hin Hstart] | ->].
        -- destruct p as [x y].
           destruct (plotAt_surj length width x y Hl2 Hin) as (k & Hk & Ek).
           exists (Z.to_nat k). rewrite Z2Nat.id by lia. split; [auto|].
           apply elem_of_seq. unfold plots.
           assert (k <> 0) by (intros ->; rewrite plotAt_0 in Ek by lia; auto).
           lia.
        -- exists (plots length width). split.
           ++ unfold plots. rewrite Z2Nat.id by nia. symmetry.
              apply plotAt_last; lia.
           ++ apply elem_of_seq. pose proof (plots_positive length width Hl Hw).
              lia.
Qed.

(** Three rows of four plots: the plot north of the east edge is looked up. *)
Lemma visited_plots_witness :
  NoDup (visited 4 3) /\
  (forall p, p ∈ visited 4 3 <->
     if decide (4 = 1) then p = (2, 1)
     else (inField 4 3 p /\ p <> (1, 1))
          \/ p = (if Z.even 3 then 1 else 4, 3 + 1)).
Proof. apply (visited_plots 4 3); lia. Defined.

(** X10: the distance depends on the table only through the plots the loop
    looks up: two tables that agree on those give the same result, for every
    amount of fuel.  Trees entered anywhere else are not counted. *)
Theorem calculateFlyDistance_frame (fuel : nat) (length width : Z)
    (treeMap1 treeMap2 : gmap string Z) :
  1 <= length -> 1 <= width ->
  (forall p, p ∈ visited length width ->
     treeMap1 !! generateTreeKey p.1 p.2 = treeMap2 !! generateTreeKey p.1 p.2) ->
  calculateFlyDistance fuel length width treeMap1
  = calculateFlyDistance fuel length width treeMap2.
Proof.
  intros Hl Hw Hagree. rewrite !calculateFlyDistance_passes by assumption.
  destruct (decide (passes length width <= fuel)%nat); [|reflexivity].
  rewrite !iter_climbs. do 3 f_equal.
  apply list_fmap_ext. intros i p Hp.
  unfold requiredAltitude. rewrite (Hagree p); [reflexivity|].
  apply list_elem_of_lookup. exists i. exact Hp.
Qed.

(** A field one plot long and three wide: the trees on (1, 2) and (1, 3) are
    not looked up. *)
Lemma calculateFlyDistance_frame_witness :
  calculateFlyDistance 3 1 3 (buildTreeMap [(1, 2, 7); (1, 3, 9)])
  = calculateFlyDistance 3 1 3 ∅.
Proof.
  apply (calculateFlyDistance_frame 3 1 3); try lia.
  intros p Hp. change (visited 1 3) with [(2, 1)] in Hp.
  apply list_elem_of_singleton in Hp. subst p. vm_compute. reflexivity.
Defined.

(** ** One tree *)

Lemma climbs_nonneg (altitude : Z) (profile : list Z) : 0 <= climbs altitude profile.
Proof.
  revert altitude. induction profile as [|a profile IH]; intros altitude; cbn [climbs].
  - lia.
  - specialize (IH a). lia.
Qed.

(** A flight that stays at altitude 1 after its start. *)
Lemma climbs_ones (g : nat -> Z) :
  forall (n s : nat) (altitude : Z),
    (forall i, (s <= i)%nat -> g i = 1) ->
    climbs altitude (g <$> seq s n)
    = match n with O => 0 | S _ => Z.abs (1 - altitude) end.
Proof.
  induction n as [|n IH]; intros s altitude Hg; [reflexivity|].
  cbn [seq]. rewrite fmap_cons. cbn [climbs].
  rewrite (Hg s) by lia. rewrite IH by (intros i Hi; apply Hg; lia).
  destruct n; lia.
Qed.

(** A flight at altitude 1 but over one plot: up and down again, or up only
    when that plot is the last. *)
Lemma climbs_single_peak (g : nat -> Z) (peak : nat) :
  (forall i, i <> peak -> g i = 1) ->
  forall (n s : nat), (s <= peak < s + n)%nat ->
    climbs 1 (g <$> seq s n)
    = if decide (S peak < s + n)%nat
      then 2 * Z.abs (g peak - 1) else Z.abs (g peak - 1).
Proof.
  intros Hg. induction n as [|n IH]; intros s Hs; [lia|].
  cbn [seq]. rewrite fmap_cons. cbn [climbs].
  destruct (decide (s = peak)) as [->|Hne].
  - rewrite climbs_ones by (intros i Hi; apply Hg; lia).
    destruct n; destruct (decide (S peak < peak + _)%nat); lia.
  - rewrite (Hg s Hne), (IH (S s)) by lia.
    destruct (decide (S peak < S s + n)%nat), (decide (S peak < s + S n)%nat); lia.
Qed.

(** The climbs of a run over a table with one tree, on the plot of step [k]. *)
Lemma single_tree_climbs (length width k height : Z) :
  2 <= length -> 1 <= width -> 1 <= k <= length * width ->
  climbs 1 (requiredAltitude
              {[ generateTreeKey (plotAt length k).1 (plotAt length k).2 := height ]}
              <$> visited length width)
  = if decide (k < length * width) then 2 * Z.abs height else Z.abs height.
Proof.
  intros Hl Hw Hk. rewrite visited_plotAt, <- list_fmap_compose by lia.
  rewrite (climbs_single_peak _ (Z.to_nat k)).
  - unfold compose, requiredAltitude, plots.
    rewrite Z2Nat.id, lookup_singleton_eq by lia.
    replace (height + 1 - 1) with height by lia.
    destruct (decide (S (Z.to_nat k) < 1 + Z.to_nat (length * width))%nat),
             (decide (k < length * width)); lia.
  - intros i Hi. unfold compose, requiredAltitude.
    rewrite lookup_singleton_ne; [reflexivity|].
    intros E. apply generateTreeKey_inj in E as [E1 E2].
    apply Hi. apply Nat2Z.inj. rewrite Z2Nat.id by lia.
    apply (plotAt_inj length); try lia.
    destruct (plotAt length k), (plotAt length (Z.of_nat i)).
    cbn [fst snd] in E1, E2. congruence.
  - unfold plots. lia.
Qed.

(** X11: on a field at least two plots long, of dimensions up to 50000, one
    tree of a height between 1 and 30 on a plot of the field other than
    (1, 1) adds twice its height to the distance of the empty field: the
    climb to one unit above it and the descent after it, also when the tree
    stands on the last plot of the sweep. *)
Theorem calculateFlyDistance_single_tree (fuel : nat) (length width x y height : Z) :
  2 <= length <= 50000 -> 1 <= width <= 50000 -> 1 <= height <= 30 ->
  inField length width (x, y) -> (x, y) <> (1, 1) ->
  (passes length width <= fuel)%nat ->
  calculateFlyDistance fuel length width {[ generateTreeKey x y := height ]}
  = Some (2 + 10 * calculateHorizontalDistance length width + 2 * height).
Proof.
  intros [Hl _] [Hw _] Hh Hin Hstart Hfuel.
  destruct (plotAt_surj length width x y Hl Hin) as (k & Hk & Ek).
  assert (k <> 0) by (intros ->; rewrite plotAt_0 in Ek by lia; auto).
  rewrite calculateFlyDistance_passes by lia.
  destruct (decide (passes length width <= fuel)%nat); [|contradiction].
  rewrite iter_climbs. unfold takeOff.
  cbn [distance currentAltitude drone_x drone_y].
  change (tail (traversal (passes length width) length 1 1))
    with (visited length width).
  pose proof (single_tree_climbs length width k height Hl Hw ltac:(lia)) as E.
  rewrite Ek in E. cbn [fst snd] in E. rewrite E.
  destruct (decide (k < length * width)); [|lia]. f_equal. lia.
Qed.

(** A tree of height 6 on the last plot of three rows of four plots. *)
Lemma calculateFlyDistance_single_tree_witness :
  calculateFlyDistance 12 4 3 {[ generateTreeKey 4 3 := 6 ]}
  = Some (2 + 10 * calculateHorizontalDistance 4 3 + 2 * 6).
Proof.
  apply (calculateFlyDistance_single_tree 12 4 3 4 3 6); try lia.
  - unfold inField. cbn. lia.
  - discriminate.
  - vm_compute. lia.
Defined.

(** X12: on a field at least two plots long, of dimensions up to 50000,
    the plot just north of the end of the sweep counts although it is off the
    field: one entry there, of a height between 1 and 30, adds its height
    once, a climb without a descent. *)
Theorem calculateFlyDistance_tree_beyond_field (fuel : nat)
    (length width height : Z) :
  2 <= length <= 50000 -> 1 <= width <= 50000 -> 1 <= height <= 30 ->
  (passes length width <= fuel)%nat ->
  calculateFlyDistance fuel length width
    {[ generateTreeKey (if Z.even width then 1 else length) (width + 1) := height ]}
  = Some (2 + 10 * calculateHorizontalDistance length width + height).
Proof.
  intros [Hl _] [Hw _] Hh Hfuel.
  rewrite calculateFlyDistance_passes by lia.
  destruct (decide (passes length width <= fuel)%nat); [|contradiction].
  rewrite iter_climbs. unfold takeOff.
  cbn [distance currentAltitude drone_x drone_y].
  change (tail (traversal (passes length width) length 1 1))
    with (visited length width).
  pose proof (single_tree_climbs length width (length * width) height Hl Hw
                ltac:(nia)) as E.
  rewrite plotAt_last in E by lia. cbn [fst snd] in E. rewrite E.
  destruct (decide (length * width < length * width)); [lia|]. f_equal. lia.
Qed.

(** The row of five plots of the tests with an entry at (5, 2). *)
Lemma calculateFlyDistance_tree_beyond_field_witness :
  calculateFlyDistance 5 5 1
    {[ generateTreeKey (if Z.even 1 then 1 else 5) (1 + 1) := 7 ]}
  = Some (2 + 10 * calculateHorizontalDistance 5 1 + 7).
Proof.
  apply (calculateFlyDistance_tree_beyond_field 5 5 1 7); try lia.
  vm_compute. lia.
Defined.

(** ** Bounds *)

(** X13: on a field of dimensions between 1 and 50000 and over a table of
    heights between 1 and 30, the distance is never below that of the empty
    field and at most 30 per pass above it; it is at least 2 and inside the
    64-bit range. *)
Theorem calculateFlyDistance_bounds (fuel : nat) (length width : Z)
    (treeMap : gmap string Z) :
  1 <= length <= 50000 -> 1 <= width <= 50000 -> heightsAccepted treeMap ->
  (passes length width <= fuel)%nat ->
  exists total,
    calculateFlyDistance fuel length width treeMap = Some total /\
    2 + 10 * calculateHorizontalDistance length width <= total /\
    total <= 2 + 10 * calculateHorizontalDistance length width
             + 30 * Z.of_nat (passes length width) /\
    2 <= total /\ fitsInt64 total.
Proof.
  intros Hl Hw HT Hfuel. rewrite calculateFlyDistance_passes by lia.
  destruct (decide (passes length width <= fuel)%nat); [|contradiction].
  eexists. split; [reflexivity|].
  destruct (iter_altitude length treeMap (takeOff length width)
              (passes length width) HT) as [_ Hd]; [cbn; lia|].
  change (distance (takeOff length width))
    with (1 + calculateHorizontalDistance length width * 10 + 1) in Hd.
  pose proof (calculateHorizontalDistance_bounds length width
                ltac:(lia) ltac:(lia)).
  pose proof (passes_le_plots length width ltac:(lia) ltac:(lia)) as Hp.
  unfold plots in Hp.
  assert (length * width <= 2500000000) by nia.
  unfold fitsInt64. lia.
Qed.

(** Three rows of four plots with two trees. *)
Lemma calculateFlyDistance_bounds_witness :
  exists total,
    calculateFlyDistance 12 4 3 (buildTreeMap [(2, 2, 30); (3, 2, 1)]) = Some total /\
    2 + 10 * calculateHorizontalDistance 4 3 <= total /\
    total <= 2 + 10 * calculateHorizontalDistance 4 3
             + 30 * Z.of_nat (passes 4 3) /\
    2 <= total /\ fitsInt64 total.
Proof.
  apply (calculateFlyDistance_bounds 12 4 3); try lia.
  - apply buildTreeMap_heightsAccepted.
    repeat constructor; unfold heightAccepted; cbn [snd]; lia.
  - vm_compute. lia.
Defined.

(** Seven passes over three rows of four plots without trees. *)
Lemma run_fits_int64_witness :
  let d := Nat.iter 7 (flyStep 4 ∅) (takeOff 4 3) in
  1 <= drone_x d <= 4 + 1 /\ 1 <= drone_y d <= 3 + 1 /\
  1 <= currentAltitude d <= 31 /\
  fitsInt64 ((4 - 1) * 3) /\
  fitsInt64 (calculateHorizontalDistance 4 3 * 10) /\
  fitsInt64 (distance d).
Proof.
  apply (run_fits_int64 4 3 ∅ 7); try lia.
  - intros key height H. rewrite lookup_empty in H. discriminate.
  - vm_compute. lia.
Defined.

(** Three rows of four plots. *)
Lemma traversal_enumerates_witness :
  NoDup (traversal (plots 4 3 - 1) 4 1 1) /\
  (forall p, p ∈ traversal (plots 4 3 - 1) 4 1 1 <-> inField 4 3 p).
Proof. apply (traversal_enumerates 4 3); lia. Defined.

(** ** The table [Start] builds *)

Lemma foldl_lastHeight (trees : list (Z * Z * Z)) (x y : Z) :
  forall treeMap : gmap string Z,
    foldl (fun treeMap '(x, y, height) => <[generateTreeKey x y := height]> treeMap)
          treeMap trees !! generateTreeKey x y
    = match lastHeight trees x y with
      | Some height => Some height
      | None => treeMap !! generateTreeKey x y
      end.
Proof.
  induction trees as [|[[x' y'] height] trees IH]; intros treeMap; [reflexivity|].
  cbn [foldl lastHeight]. rewrite IH.
  destruct (lastHeight trees x y); [reflexivity|].
  destruct (decide ((x', y') = (x, y))) as [E|E].
  - injection E as -> ->. apply lookup_insert_eq.
  - apply lookup_insert_ne. intros K. apply generateTreeKey_inj in K as [-> ->].
    auto.
Qed.

(** X16: looking a plot up in the table built from a list of triples gives
    the height of the last triple entered for that plot, and nothing when no
    triple was entered for it: a later entry replaces an earlier one, and
    entries for other plots do not interfere. *)
Theorem buildTreeMap_lookup (trees : list (Z * Z * Z)) (x y : Z) :
  buildTreeMap trees !! generateTreeKey x y = lastHeight trees x y /\
  (lastHeight trees x y = None <-> forall height, (x, y, height) ∉ trees).
Proof.
  split.
  - unfold buildTreeMap. rewrite foldl_lastHeight, lookup_empty.
    destruct (lastHeight trees x y); reflexivity.
  - induction trees as [|[[x' y'] h'] trees IH]; cbn [lastHeight].
    + split; [intros _ height; apply not_elem_of_nil|reflexivity].
    + destruct (lastHeight trees x y) as [h|] eqn:E.
      * split; [discriminate|]. intros Hno.
        apply IH. intros height Hin. apply (Hno height). right. exact Hin.
      * destruct (decide ((x', y') = (x, y))) as [K|K].
        -- injection K as -> ->. split; [discriminate|].
           intros Hno. exfalso. apply (Hno h'). left.
        -- split; [|reflexivity]. intros _ height Hin.
           apply elem_of_cons in Hin as [Hin|Hin].
           ++ injection Hin as -> -> _. auto.
           ++ exact (proj1 IH eq_refl height Hin).
Qed.

(** X17: when no plot is entered twice, the order in which the triples are
    entered does not matter: any rearrangement gives the same table, hence
    the same distance. *)
Theorem buildTreeMap_order_irrelevant (trees1 trees2 : list (Z * Z * Z)) :
  NoDup (fst <$> trees1) -> trees1 ≡ₚ trees2 ->
  buildTreeMap trees1 = buildTreeMap trees2.
Proof.
  intros Hnd Hperm. apply buildTreeMap_permutation; [|exact Hperm].
  assert (E : (treeEntry <$> trees1).*1
              = (fun p : Z * Z => generateTreeKey p.1 p.2) <$> (fst <$> trees1)).
  { rewrite <- !list_fmap_compose. apply list_fmap_ext.
    intros i [[x y] h] _. reflexivity. }
  rewrite E. apply NoDup_fmap_2_strong; [|exact Hnd].
  intros [xa ya] [xb yb] _ _ K. cbn [fst snd] in K.
  apply generateTreeKey_inj in K as [-> ->]. reflexivity.
Qed.

(** The order of the third test of [calculateFlyDistance]. *)
Lemma buildTreeMap_order_irrelevant_witness :
  buildTreeMap [(3, 1, 10); (4, 1, 10); (2, 1, 10)]
  = buildTreeMap [(2, 1, 10); (3, 1, 10); (4, 1, 10)].
Proof.
  apply buildTreeMap_order_irrelevant.
  - refine (@bool_decide_unpack _ (NoDup_dec _) _). vm_compute. exact I.
  - apply Permutation_sym, Permutation_cons_append.
Defined.

(** ** The runs of [Start] *)

(** With accepted heights the reading loop reads every triple and hands over
    the table of the triples, inserted in their order. *)
Lemma readTrees_accepts (util : nat -> Z * Z * Z) :
  forall (remaining i : nat) (treeMap : gmap string Z),
    (forall j, (i <= j < i + remaining)%nat -> heightAccepted (util (S j))) ->
    readTrees util remaining i treeMap
    = ((i + remaining)%nat,
       Some (foldl (fun treeMap '(x, y, height) =>
                      <[generateTreeKey x y := height]> treeMap)
                   treeMap ((fun j => util (S j)) <$> seq i remaining))).
Proof.
  induction remaining as [|remaining IH]; intros i treeMap Hok.
  - cbn. rewrite Nat.add_0_r. reflexivity.
  - cbn [readTrees seq]. rewrite fmap_cons. cbn [foldl].
    pose proof (Hok i ltac:(lia)) as Hi. unfold heightAccepted in Hi.
    destruct (util (S i)) as [[x y] height]. cbn [snd] in Hi.
    rewrite (proj2 (Z.ltb_ge height 1)) by lia.
    rewrite Z.gtb_ltb, (proj2 (Z.ltb_ge 30 height)) by lia. cbn [orb].
    rewrite IH by (intros j Hj; apply Hok; lia).
    f_equal. lia.
Qed.

(** The reading loop either accepts all heights or stops at a refused one. *)
Lemma readTrees_cases (util : nat -> Z * Z * Z) (remaining i : nat) :
  (forall j, (i <= j < i + remaining)%nat -> heightAccepted (util (S j)))
  \/ (exists j, (i <= j < i + remaining)%nat /\ ~ heightAccepted (util (S j))).
Proof.
  revert i. induction remaining as [|remaining IH]; intros i.
  - left. intros j Hj. lia.
  - destruct (decide (1 <= (util (S i)).2 <= 30)) as [Hi|Hi].
    + destruct (IH (S i)) as [Hall|(j & Hj & Hbad)].
      * left. intros j Hj. destruct (decide (j = i)) as [->|Hne]; [exact Hi|].
        apply Hall. lia.
      * right. exists j. split; [lia|exact Hbad].
    + right. exists i. split; [lia|exact Hi].
Qed.

(** X18: on accepted dimensions and heights [Start] calls [Scanln] once for
    the dimensions and once per triple, prints one number, the distance of
    the field over the table of the triples read, writes nothing to the error
    stream and does not exit.  The number printed is at least 2 and fits in
    64 bits. *)
Theorem Start_prints_distance (fuel : nat) (util : nat -> Z * Z * Z)
    (length width count : Z) :
  util O = (length, width, count) ->
  dimensionsAccepted length width count ->
  (forall j, (j < Z.to_nat count)%nat -> heightAccepted (util (S j))) ->
  (passes length width <= fuel)%nat ->
  exists total,
    calculateFlyDistance fuel length width
      (buildTreeMap (scannedTrees util (Z.to_nat count))) = Some total /\
    Start fuel util = Some (Run (S (Z.to_nat count)) [total] [] None) /\
    2 <= total /\ fitsInt64 total.
Proof.
  intros E Hdim Hok Hfuel.
  pose proof (readTrees_accepts util (Z.to_nat count) O ∅
                ltac:(intros j Hj; apply Hok; lia)) as Hread.
  cbn [Nat.add] in Hread.
  change (foldl _ ∅ _) with (buildTreeMap (scannedTrees util (Z.to_nat count)))
    in Hread.
  pose proof (readTrees_heightsAccepted util _ _ _ _ _
                ltac:(intros key h H; rewrite lookup_empty in H; discriminate)
                Hread) as HT.
  destruct Hdim as (Hl & Hw & Hc).
  set (treeMap := buildTreeMap (scannedTrees util (Z.to_nat count))) in *.
  unfold Start. rewrite E.
  rewrite (proj2 (validateInitialInputs_spec length width count))
    by (unfold dimensionsAccepted; lia).
  cbn [negb]. rewrite Hread.
  rewrite calculateFlyDistance_passes by lia.
  destruct (decide (passes length width <= fuel)%nat); [|contradiction].
  eexists. split; [reflexivity|]. split; [reflexivity|].
  destruct (iter_altitude length treeMap (takeOff length width)
              (passes length width) HT) as [_ Hd]; [cbn; lia|].
  change (distance (takeOff length width))
    with (1 + calculateHorizontalDistance length width * 10 + 1) in Hd.
  pose proof (calculateHorizontalDistance_bounds length width ltac:(lia) ltac:(lia)).
  pose proof (passes_le_plots length width ltac:(lia) ltac:(lia)) as Hp.
  unfold plots in Hp.
  assert (length * width <= 2500000000) by nia.
  unfold fitsInt64. lia.
Qed.

(** The success test of [TestApp_Start]. *)
Lemma Start_prints_distance_witness :
  exists total,
    calculateFlyDistance 1 1 2
      (buildTreeMap (scannedTrees successTestUtil (Z.to_nat 1))) = Some total /\
    Start 1 successTestUtil = Some (Run (S (Z.to_nat 1)) [total] [] None) /\
    2 <= total /\ fitsInt64 total.
Proof.
  apply (Start_prints_distance 1 successTestUtil 1 2 1 eq_refl).
  - unfold dimensionsAccepted. lia.
  - intros j Hj. destruct j; unfold heightAccepted; cbn; lia.
  - vm_compute. lia.
Defined.

(** X19: with fuel for the passes of the field when the dimensions are
    accepted, and with any fuel when they are not, [Start] returns, and its
    run ends in one of two ways, never mixed.  Either it fails, with FAIL on
    the error stream, status 1 and nothing printed, and then a dimension or
    the count is out of range or one of the triples read has a refused
    height; or it prints one number, writes nothing to the error stream and
    does not exit, and then the dimensions and every height were accepted.
    [Start] fails for no other reason. *)
Theorem Start_outcomes (fuel : nat) (util : nat -> Z * Z * Z)
    (length width count : Z) :
  util O = (length, width, count) ->
  (dimensionsAccepted length width count -> (passes length width <= fuel)%nat) ->
  exists r,
    Start fuel util = Some r /\
    ((exitStatus r = Some 1 /\ stderr r = ["FAIL"%string] /\ stdout r = [] /\
      (~ dimensionsAccepted length width count \/
       exists j, (j < Z.to_nat count)%nat /\ ~ heightAccepted (util (S j))))
     \/
     (exitStatus r = None /\ stderr r = [] /\
      (exists total, stdout r = [total]) /\
      scans r = S (Z.to_nat count) /\
      dimensionsAccepted length width count /\
      forall j, (j < Z.to_nat count)%nat -> heightAccepted (util (S j)))).
Proof.
  intros E Hfuel. unfold Start. rewrite E.
  destruct (validateInitialInputs length width count) eqn:Hv; cbn [negb].
  - apply validateInitialInputs_spec in Hv. specialize (Hfuel Hv).
    destruct (readTrees_cases util (Z.to_nat count) O) as [Hall|(j & Hj & Hbad)].
    + rewrite (readTrees_accepts util _ _ _ Hall).
      destruct Hv as (Hl & Hw & Hc).
      rewrite calculateFlyDistance_passes by lia.
      destruct (decide (passes length width <= fuel)%nat); [|contradiction].
      eexists. split; [reflexivity|]. right. cbn.
      split; [reflexivity|]. split; [reflexivity|]. split; [eauto|].
      split; [reflexivity|].
      split; [unfold dimensionsAccepted; lia|].
      intros j Hj. apply Hall. lia.
    + destruct (readTrees_refuses util _ _ ∅ j Hj Hbad)
        as (first & Hf & Hfb & _ & Hread).
      rewrite Hread. eexists. split; [reflexivity|]. left. cbn.
      split; [reflexivity|]. split; [reflexivity|]. split; [reflexivity|].
      right. exists first. split; [lia|exact Hfb].
  - eexists. split; [reflexivity|]. left. cbn.
    split; [reflexivity|]. split; [reflexivity|]. split; [reflexivity|].
    left. intros Hok. apply validateInitialInputs_spec in Hok. congruence.
Qed.

(** The success test of [TestApp_Start], with fuel for its one pass. *)
Lemma Start_outcomes_witness :
  exists r,
    Start 1 successTestUtil = Some r /\
    ((exitStatus r = Some 1 /\ stderr r = ["FAIL"%string] /\ stdout r = [] /\
      (~ dimensionsAccepted 1 2 1 \/
       exists j, (j < Z.to_nat 1)%nat /\ ~ heightAccepted (successTestUtil (S j))))
     \/
     (exitStatus r = None /\ stderr r = [] /\
      (exists total, stdout r = [total]) /\
      scans r = S (Z.to_nat 1) /\
      dimensionsAccepted 1 2 1 /\
      forall j, (j < Z.to_nat 1)%nat -> heightAccepted (successTestUtil (S j)))).
Proof.
  apply (Start_outcomes 1 successTestUtil 1 2 1 eq_refl).
  intros _. vm_compute. lia.
Defined.

(** ** Fields one plot long *)

(** X20: on a field one plot long and up to 50000 wide, over a table of
    heights between 1 and 30, the table is read at the plot (2, 1) only: the
    distance is that of the empty field, plus the height entered for (2, 1)
    when there is one.  Trees on the plots of the field are not counted. *)
Theorem calculateFlyDistance_single_column (fuel : nat) (width : Z)
    (treeMap : gmap string Z) :
  1 <= width <= 50000 -> heightsAccepted treeMap -> (1 <= fuel)%nat ->
  calculateFlyDistance fuel 1 width treeMap
  = Some (2 + 10 * calculateHorizontalDistance 1 width
          + match treeMap !! generateTreeKey 2 1 with
            | Some height => height
            | None => 0
            end).
Proof.
  intros Hw HT Hfuel. rewrite calculateFlyDistance_passes by lia.
  change (passes 1 width) with 1%nat.
  destruct (decide (1 <= fuel)%nat); [|contradiction].
  rewrite iter_climbs. unfold takeOff.
  cbn [distance currentAltitude drone_x drone_y].
  change (traversal 1 1 1 1) with [(1, 1); (2, 1)].
  cbn [tail fmap list_fmap climbs]. unfold requiredAltitude. cbn [fst snd].
  destruct (treeMap !! generateTreeKey 2 1) as [h|] eqn:E; f_equal.
  - apply HT in E. lia.
  - lia.
Qed.

(** A column of four plots with a tree on each plot above the first. *)
Lemma calculateFlyDistance_single_column_witness :
  calculateFlyDistance 1 1 4 (buildTreeMap [(1, 2, 9); (1, 3, 9); (1, 4, 9)])
  = Some (2 + 10 * calculateHorizontalDistance 1 4
          + match buildTreeMap [(1, 2, 9); (1, 3, 9); (1, 4, 9)]
                  !! generateTreeKey 2 1 with
            | Some height => height
            | None => 0
            end).
Proof.
  apply (calculateFlyDistance_single_column 1 4); try lia.
  apply buildTreeMap_heightsAccepted.
  repeat constructor; unfold heightAccepted; cbn [snd]; lia.
Defined.
